(** * Intergenerational wealth model: consumption rule, life cycle, ranks

    A shallow embedding of [wealth_model/constants.py], [wealth_model/mpc.py]
    and [wealth_model/simulation.py].

    Numbers.  Python integers are [Z] (or [nat] for loop counters and array
    sizes).  Python and NumPy floats are values of [float64] below: a real
    number, one of the two infinities, or NaN.  Finite results are exact
    reals: rounding, overflow of finite results and the sign of zero are not
    modelled.  What is modelled is where NumPy leaves the finite numbers:
    division by zero, [inf - inf], [0 * inf], powers of non-positive bases,
    and the propagation of NaN through arithmetic, comparisons, [np.minimum],
    [np.maximum] and [np.where].  NumPy float arithmetic never raises; it
    returns one of the special values.  Python's own division does raise on
    a zero divisor: the module [Calls] adds that, and the refusal of a
    negative population size, for the two entry points called from outside.
    The statements below are those that rounding leaves true; where a
    statement over the exact reals fails on the doubles, the module
    [Binary64] evaluates the same expression on IEEE binary64 numbers.

    Randomness.  Every draw from [np.random] or [scipy.stats.pareto] is an
    explicit input to the model: a real number indexed by the individual
    (and by the year, for the yearly shocks). *)

From Stdlib Require Import Reals Lra Lia ZArith List Bool.
From Stdlib Require Floats.PrimFloat.
Import ListNotations.

Local Open Scope R_scope.

(* ================================================================== *)
(** ** NumPy float model *)

Module Float64.

Inductive float64 : Type :=
| Fin (r : R)
| PInf
| NInf
| NaN.

Definition Rltb (x y : R) : bool := if Rlt_dec x y then true else false.
Definition Reqb (x y : R) : bool := if Req_dec_T x y then true else false.

Definition is_nan (x : float64) : bool :=
  match x with NaN => true | _ => false end.

Definition is_finite (x : float64) : bool :=
  match x with Fin _ => true | _ => false end.

(** The infinity carrying the sign of [s]; NaN when [s] is zero
    (the result of [0 * inf] and of [0 / 0]). *)
Definition signed_inf (s : R) : float64 :=
  if Rltb 0 s then PInf else if Rltb s 0 then NInf else NaN.

Definition fneg (x : float64) : float64 :=
  match x with
  | Fin a => Fin (- a)
  | PInf => NInf
  | NInf => PInf
  | NaN => NaN
  end.

Definition fadd (x y : float64) : float64 :=
  match x, y with
  | NaN, _ | _, NaN => NaN
  | Fin a, Fin b => Fin (a + b)
  | PInf, NInf | NInf, PInf => NaN
  | PInf, _ | _, PInf => PInf
  | NInf, _ | _, NInf => NInf
  end.

Definition fsub (x y : float64) : float64 := fadd x (fneg y).

Definition fmul (x y : float64) : float64 :=
  match x, y with
  | NaN, _ | _, NaN => NaN
  | Fin a, Fin b => Fin (a * b)
  | Fin a, PInf | PInf, Fin a => signed_inf a
  | Fin a, NInf | NInf, Fin a => signed_inf (- a)
  | PInf, PInf | NInf, NInf => PInf
  | PInf, NInf | NInf, PInf => NInf
  end.

(** NumPy true division: a finite non-zero number over zero is an infinity,
    [0 / 0] and [inf / inf] are NaN; nothing is raised. *)
Definition fdiv (x y : float64) : float64 :=
  match x, y with
  | NaN, _ | _, NaN => NaN
  | Fin a, Fin b => if Reqb b 0 then signed_inf a else Fin (a / b)
  | Fin _, PInf | Fin _, NInf => Fin 0
  | PInf, Fin b => if Rltb b 0 then NInf else PInf
  | NInf, Fin b => if Rltb b 0 then PInf else NInf
  | _, _ => NaN
  end.

(** Comparisons; every comparison with NaN is false. *)
Definition fltb (x y : float64) : bool :=
  match x, y with
  | NaN, _ | _, NaN => false
  | Fin a, Fin b => Rltb a b
  | NInf, Fin _ | NInf, PInf | Fin _, PInf => true
  | _, _ => false
  end.

Definition feqb (x y : float64) : bool :=
  match x, y with
  | Fin a, Fin b => Reqb a b
  | PInf, PInf | NInf, NInf => true
  | _, _ => false
  end.

Definition fgtb (x y : float64) : bool := fltb y x.
Definition fleb (x y : float64) : bool := fltb x y || feqb x y.
Definition fgeb (x y : float64) : bool := fleb y x.

(** [np.minimum] and [np.maximum]: NaN if either argument is NaN. *)
Definition minimum (x y : float64) : float64 :=
  match x, y with
  | NaN, _ | _, NaN => NaN
  | _, _ => if fltb y x then y else x
  end.

Definition maximum (x y : float64) : float64 :=
  match x, y with
  | NaN, _ | _, NaN => NaN
  | _, _ => if fltb x y then y else x
  end.

(** [np.where] on scalars. *)
Definition where_ {A : Type} (c : bool) (x y : A) : A := if c then x else y.

Definition is_int (b : R) : bool := Reqb (IZR (Int_part b)) b.
Definition is_odd_int (b : R) : bool := is_int b && Z.odd (Int_part b).

(** [np.power] on floats (the C [pow]): anything to the power 0 is 1, and
    1 to any power is 1, NaN included; a negative finite base with a
    non-integer exponent is NaN; zero to a negative power is infinite. *)
Definition power (x y : float64) : float64 :=
  if feqb y (Fin 0) then Fin 1
  else if feqb x (Fin 1) then Fin 1
  else
    match x, y with
    | NaN, _ | _, NaN => NaN
    | Fin a, Fin b =>
        if Rltb 0 a then Fin (Rpower a b)
        else if Reqb a 0 then (if Rltb b 0 then PInf else Fin 0)
        else if is_int b
             then Fin (if Z.odd (Int_part b)
                       then - Rpower (- a) b else Rpower (- a) b)
             else NaN
    | Fin a, PInf =>
        if Rltb (Rabs a) 1 then Fin 0
        else if Reqb (Rabs a) 1 then Fin 1 else PInf
    | Fin a, NInf =>
        if Rltb (Rabs a) 1 then PInf
        else if Reqb (Rabs a) 1 then Fin 1 else Fin 0
    | PInf, Fin b => if Rltb b 0 then Fin 0 else PInf
    | PInf, PInf => PInf
    | PInf, NInf => Fin 0
    | NInf, Fin b =>
        if Rltb b 0 then Fin 0
        else if is_odd_int b then NInf else PInf
    | NInf, PInf => PInf
    | NInf, NInf => Fin 0
    end.

Definition fsqrt (x : float64) : float64 :=
  match x with
  | Fin a => if Rltb a 0 then NaN else Fin (sqrt a)
  | PInf => PInf
  | _ => NaN
  end.

Definition fabs (x : float64) : float64 :=
  match x with
  | Fin a => Fin (Rabs a)
  | PInf | NInf => PInf
  | NaN => NaN
  end.

End Float64.

Import Float64.

(* ================================================================== *)
(** ** constants.py *)

Module Constants.

(* Income parameters *)
Definition BASE_INCOME : Z := 50000.
Definition INCOME_GROWTH_RATE : R := 2 / 100.
Definition INCOME_VOLATILITY : R := 3 / 10.
Definition PARENT_WEALTH_EFFECT : R := 2 / 10.
Definition RETIREMENT_INCOME_RATIO : R := 4 / 10.

(* Investment returns *)
Definition RETURN_MEAN : R := 4 / 100.
Definition RETURN_VOLATILITY : R := 5 / 100.

(* MPC parameters *)
Definition MPC_BASE : R := 6 / 10.
Definition MPC_REFERENCE_INCOME : Z := 35000.
Definition MPC_ELASTICITY : R := - (7 / 10).
Definition BORROWING_LIMIT_WEALTH_SHARE : R := 1 / 10.

(* Demographics *)
Definition CHILD_START_AGE : Z := 25.
Definition PARENT_START_AGE : Z := 50.
Definition RETIREMENT_AGE : Z := 65.
Definition BEQUEST_AGE_MIN : Z := 30.
Definition BEQUEST_AGE_MAX : Z := 60.
Definition NO_BEQUEST_PROB : R := 4 / 10.

(* Initial wealth *)
Definition PARETO_SHAPE : Z := 2.
Definition WEALTH_SCALE : Z := 20.

End Constants.

Import Constants.

(* ================================================================== *)
(** ** mpc.py *)

Module Mpc.

(** Marginal propensity to consume at a given income level. *)
Definition calculate_mpc (income base_mpc reference_income elasticity : float64)
  : float64 :=
  let scaled_income :=
    maximum (fdiv income reference_income) (Fin (1 / 1000000)) in
  fmul base_mpc (power scaled_income elasticity).

(** Consumption, the integral of the MPC from 0 to [income]. *)
Definition calculate_consumption
    (income base_mpc reference_income elasticity : float64) : float64 :=
  let alpha := fadd elasticity (Fin 1) in
  let scaled_income := fdiv income reference_income in
  fdiv (fmul (fmul base_mpc reference_income) (power scaled_income alpha))
       alpha.

End Mpc.

Import Mpc.

(* ================================================================== *)
(** ** Array operations of NumPy and SciPy used by the simulation *)

Module Arrays.

Section Generic.
Context {A B C : Type}.

Fixpoint map2 (f : A -> B -> C) (xs : list A) (ys : list B) : list C :=
  match xs, ys with
  | x :: xs', y :: ys' => f x y :: map2 f xs' ys'
  | _, _ => []
  end.

(** [enumerate(xs)]. *)
Definition enumerate (xs : list A) : list (nat * A) :=
  combine (seq 0 (length xs)) xs.

(** Boolean-mask selection [a[mask]]. *)
Fixpoint compress (mask : list bool) (a : list A) : list A :=
  match mask, a with
  | true :: mask', x :: a' => x :: compress mask' a'
  | false :: mask', _ :: a' => compress mask' a'
  | _, _ => []
  end.

(** Boolean-mask assignment [a[mask] = vals]: the k-th selected position
    receives the k-th value.  NumPy requires as many values as selected
    positions; the simulation always supplies exactly that many (see
    [positive_ranks_shape]), so running out of values is left as a no-op. *)
Fixpoint assign_mask (a : list A) (mask : list bool) (vals : list A)
  : list A :=
  match a, mask with
  | x :: a', true :: mask' =>
      match vals with
      | v :: vals' => v :: assign_mask a' mask' vals'
      | [] => x :: a'
      end
  | x :: a', false :: mask' => x :: assign_mask a' mask' vals
  | _, _ => a
  end.

End Generic.

(** [np.sum] of a boolean array. *)
Definition count_true (mask : list bool) : nat :=
  length (filter (fun b => b) mask).

(** [np.zeros(n)]. *)
Definition zeros (n : nat) : list float64 := repeat (Fin 0) n.

(** [np.linspace(start, stop, num)]: [num] evenly spaced samples, both
    end points included. *)
Definition linspace (start stop : R) (num : nat) : list float64 :=
  let step := (stop - start) / INR (num - 1) in
  map (fun i => Fin (start + INR i * step)) (seq 0 num).

Definition fsum (a : list float64) : float64 := fold_left fadd a (Fin 0).

(** [np.mean]; the mean of an empty array is [0 / 0], NaN. *)
Definition mean (a : list float64) : float64 :=
  fdiv (fsum a) (Fin (INR (length a))).

(** [np.std]: the square root of the mean squared deviation. *)
Definition std (a : list float64) : float64 :=
  let m := mean a in
  fsqrt (mean (map (fun x => let d := fabs (fsub x m) in fmul d d) a)).

(** [scipy.stats.rankdata] with its defaults: ranks start at 1, tied
    values share the average of the ranks they span, and a NaN anywhere in
    the input makes every rank NaN. *)
Definition count_lt (a : list float64) (x : float64) : nat :=
  length (filter (fun y => fltb y x) a).

Definition count_eq (a : list float64) (x : float64) : nat :=
  length (filter (fun y => feqb y x) a).

Definition average_rank (a : list float64) (x : float64) : R :=
  INR (count_lt a x) + (INR (count_eq a x) + 1) / 2.

Definition rankdata (a : list float64) : list float64 :=
  if existsb is_nan a then map (fun _ => NaN) a
  else map (fun x => Fin (average_rank a x)) a.

End Arrays.

Import Arrays.

(* ================================================================== *)
(** ** simulation.py *)

Module Simulation.

(** The [mpc_params] dictionary. *)
Record MpcParams : Type := {
  base_mpc : float64;
  reference_income : float64;
  elasticity : float64
}.

Definition default_mpc_params : MpcParams :=
  {| base_mpc := Fin MPC_BASE;
     reference_income := Fin (IZR MPC_REFERENCE_INCOME);
     elasticity := Fin MPC_ELASTICITY |}.

Record Person : Type := {
  age : Z;
  wealth : float64;
  parent_wealth_rank : option float64;
  wealth_history : list float64;
  labor_income_history : list float64;
  capital_income_history : list float64;
  consumption_history : list float64;
  base_labor_income : float64
}.

(** [Person.__init__]. *)
Definition Person_init (age0 : Z) (initial_wealth : float64)
    (parent_rank : option float64) : Person :=
  {| age := age0;
     wealth := initial_wealth;
     parent_wealth_rank := parent_rank;
     wealth_history := [initial_wealth];
     labor_income_history := [];
     capital_income_history := [];
     consumption_history := [];
     base_labor_income :=
       match parent_rank with
       | Some r =>
           fmul (Fin (IZR BASE_INCOME))
                (fadd (Fin 1) (fmul (Fin PARENT_WEALTH_EFFECT) r))
       | None => Fin (IZR BASE_INCOME)
       end |}.

(** [Person.get_labor_income]; [lognormal_draw] is the value of
    [np.random.lognormal(0, INCOME_VOLATILITY)]. *)
Definition get_labor_income (self : Person) (years_worked : nat)
    (lognormal_draw : R) : float64 :=
  if (RETIREMENT_AGE <=? age self)%Z
  then fmul (base_labor_income self) (Fin RETIREMENT_INCOME_RATIO)
  else
    let growth_factor := Fin ((1 + INCOME_GROWTH_RATE) ^ years_worked) in
    fmul (fmul (base_labor_income self) growth_factor) (Fin lognormal_draw).

(** [Person.get_capital_income]; [normal_draw] is the value of
    [np.random.normal(RETURN_MEAN, RETURN_VOLATILITY)]. *)
Definition get_capital_income (self : Person) (normal_draw : R) : float64 :=
  let return_factor := fadd (Fin 1) (Fin normal_draw) in
  fmul (wealth self) (fsub return_factor (Fin 1)).

(** The quantities computed by one call of [Person.simulate_year], before
    they are stored. *)
Record YearFlows : Type := {
  labor_income : float64;
  capital_income : float64;
  total_income : float64;
  raw_consumption : float64;
  borrowing_available : float64;
  max_consumption : float64;
  consumption : float64
}.

Definition year_flows (self : Person) (years_worked : nat)
    (mpc_params : option MpcParams) (lognormal_draw normal_draw : R)
  : YearFlows :=
  let mpc_params :=
    match mpc_params with
    | None => default_mpc_params
    | Some p => p
    end in
  (* Calculate incomes *)
  let labor := get_labor_income self years_worked lognormal_draw in
  let capital := get_capital_income self normal_draw in
  let total := fadd labor capital in
  (* Calculate consumption by integrating MPC *)
  let raw :=
    calculate_consumption total (base_mpc mpc_params)
      (reference_income mpc_params) (elasticity mpc_params) in
  (* Can only borrow against positive wealth *)
  let borrowing :=
    where_ (fgtb (wealth self) (Fin 0))
      (fmul (wealth self) (Fin BORROWING_LIMIT_WEALTH_SHARE)) (Fin 0) in
  let max_c := fadd total borrowing in
  {| labor_income := labor;
     capital_income := capital;
     total_income := total;
     raw_consumption := raw;
     borrowing_available := borrowing;
     max_consumption := max_c;
     consumption := minimum raw max_c |}.

(** [Person.simulate_year]: the person after the year. *)
Definition simulate_year (self : Person) (years_worked : nat)
    (mpc_params : option MpcParams) (lognormal_draw normal_draw : R)
  : Person :=
  let f := year_flows self years_worked mpc_params lognormal_draw normal_draw in
  (* Update wealth *)
  let wealth' := fadd (wealth self) (fsub (total_income f) (consumption f)) in
  {| age := age self + 1;
     wealth := wealth';
     parent_wealth_rank := parent_wealth_rank self;
     (* Update histories *)
     wealth_history := wealth_history self ++ [wealth'];
     labor_income_history := labor_income_history self ++ [labor_income f];
     capital_income_history :=
       capital_income_history self ++ [capital_income f];
     consumption_history := consumption_history self ++ [consumption f];
     base_labor_income := base_labor_income self |}.

(** [child.wealth += amount]. *)
Definition add_wealth (self : Person) (amount : float64) : Person :=
  {| age := age self;
     wealth := fadd (wealth self) amount;
     parent_wealth_rank := parent_wealth_rank self;
     wealth_history := wealth_history self;
     labor_income_history := labor_income_history self;
     capital_income_history := capital_income_history self;
     consumption_history := consumption_history self;
     base_labor_income := base_labor_income self |}.

(** The random draws of one run: [pareto_rvs i], [randint i] and
    [random i] are the i-th entries of the three arrays drawn before the
    loop; [lognormal year i] and [normal year i] are the shocks of
    individual [i] in year [year]. *)
Record RandomSource : Type := {
  pareto_rvs : nat -> R;
  randint : nat -> Z;
  random : nat -> R;
  lognormal : nat -> nat -> R;
  normal : nat -> nat -> R
}.

Section Run.

Variable n_people : nat.
Variable mpc_params : option MpcParams.
Variable rs : RandomSource.

(* Generate parent wealth distribution *)
Definition parent_wealth : list float64 :=
  map (fun i =>
         fmul (fmul (Fin (pareto_rvs rs i)) (Fin (IZR WEALTH_SCALE)))
              (Fin (IZR BASE_INCOME)))
      (seq 0 n_people).

Definition parent_ranks : list float64 :=
  map (fun r => fdiv r (Fin (INR (length parent_wealth))))
      (rankdata parent_wealth).

(* Create children (start with zero wealth) *)
Definition initial_children : list Person :=
  map (fun parent_rank =>
         Person_init CHILD_START_AGE (Fin 0) (Some parent_rank))
      parent_ranks.

(* Generate bequest timing *)
Definition will_get_bequest : list bool :=
  map (fun r => fgeb r (Fin NO_BEQUEST_PROB)) parent_ranks.

Definition death_ages : list Z := map (randint rs) (seq 0 n_people).

Definition bequest_shares : list float64 :=
  map (fun i => Fin (random rs i)) (seq 0 n_people).

Definition bequests : list float64 :=
  map2 (fun (c : bool) v => where_ c v (Fin 0))
       will_get_bequest (map2 fmul parent_wealth bequest_shares).

(** The body of the inner loop for individual [i] in year [year]. *)
Definition child_year (year i : nat) (child : Person) : Person :=
  (* Add bequest if parent dies this year *)
  let child :=
    if (age child =? nth i death_ages 0%Z)%Z
    then add_wealth child (nth i bequests (Fin 0))
    else child in
  simulate_year child year mpc_params (lognormal rs year i) (normal rs year i).

(** One pass of the outer loop over all children. *)
Definition simulate_all (year : nat) (children : list Person) : list Person :=
  map (fun ic => child_year year (fst ic) (snd ic)) (enumerate children).

(** The children after the first [years] iterations of the outer loop. *)
Definition children_after (years : nat) : list Person :=
  fold_left (fun children year => simulate_all year children)
            (seq 0 years) initial_children.

Definition n_years : nat := 60.

(* Calculate final rankings *)
Definition positive_bequest_mask : list bool :=
  map (fun b => fgtb b (Fin 0)) bequests.

Definition n_positive : nat := count_true positive_bequest_mask.

Definition positive_ranks : list float64 :=
  map (fun r => fdiv r (Fin (INR n_positive)))
      (rankdata (compress positive_bequest_mask bequests)).

Definition bequest_ranks : list float64 :=
  if (0 <? n_positive)%nat
  then assign_mask (zeros n_people) positive_bequest_mask
         (map (fun r => fadd (Fin (4 / 10)) (fmul (Fin (6 / 10)) r))
              positive_ranks)
  else zeros n_people.

(** [child.wealth_history[-1]]; the history is never empty. *)
Definition final_wealth (children : list Person) : list float64 :=
  map (fun child => last (wealth_history child) NaN) children.

Definition wealth_ranks (children : list Person) : list float64 :=
  map (fun r => fdiv (fsub r (Fin 1)) (Fin (IZR (Z.of_nat n_people - 1))))
      (rankdata (final_wealth children)).

(** [run_simulation]: children, bequest ranks, wealth ranks. *)
Definition run_simulation : list Person * list float64 * list float64 :=
  let children := children_after n_years in
  (children, bequest_ranks, wealth_ranks children).

End Run.

(** [calculate_rank_statistics]. *)
Section RankStatistics.

Variable bequest_ranks_in wealth_ranks_in : list float64.
Variable n_bins : nat.

Definition bins : list float64 := linspace 0 1 (n_bins + 1).

Definition bin_centers : list float64 :=
  map (fun s => fdiv s (Fin 2)) (map2 fadd (tl bins) (removelast bins)).

(** The selection mask of bin [i]. *)
Definition bin_mask (i : nat) : list bool :=
  map (fun r => fgeb r (nth i bins NaN) && fltb r (nth (i + 1) bins NaN))
      bequest_ranks_in.

Definition bin_mean (i : nat) : float64 :=
  let mask := bin_mask i in
  if (0 <? count_true mask)%nat
  then mean (compress mask wealth_ranks_in) else NaN.

Definition bin_std (i : nat) : float64 :=
  let mask := bin_mask i in
  if (0 <? count_true mask)%nat
  then std (compress mask wealth_ranks_in) else NaN.

Definition calculate_rank_statistics
  : list float64 * list float64 * list float64 :=
  (bin_centers, map bin_mean (seq 0 n_bins), map bin_std (seq 0 n_bins)).

End RankStatistics.

End Simulation.

Import Simulation.

(* ================================================================== *)
(** ** plotting.py: the data handed to the figures

    The figures themselves are Plotly objects and are not modelled; what
    is modelled is the arrays each function computes and passes to its
    traces, as pairs (x, y). *)

Module Plotting.

(** [np.logspace(start, stop, num)]: 10 to the powers
    [np.linspace(start, stop, num)]. *)
Definition logspace (start stop : R) (num : nat) : list float64 :=
  map (fun y => power (Fin 10) y) (linspace start stop num).

(** [np.arange(start, stop)] on integers. *)
Definition arange (start stop : Z) : list Z :=
  map (fun i => (start + Z.of_nat i)%Z) (seq 0 (Z.to_nat (stop - start))).

(** [plot_mpc_consumption]: the income grid and the two curves. *)
Definition plot_mpc_consumption_data
    (base_mpc reference_income elasticity : float64)
  : list float64 * list float64 * list float64 :=
  (* Generate income points *)
  let incomes := logspace 4 7 1000 in
  (* Calculate MPCs and consumption *)
  let mpcs :=
    map (fun income =>
           calculate_mpc income base_mpc reference_income elasticity)
        incomes in
  let consumption :=
    map (fun income =>
           calculate_consumption income base_mpc reference_income elasticity)
        incomes in
  (incomes, mpcs, consumption).

(** [plot_life_trajectory]: the wealth trace, the total-income trace and
    the consumption trace. *)
Definition plot_life_trajectory_data (person : Person)
  : (list Z * list float64) * (list Z * list float64)
    * (list Z * list float64) :=
  let ages :=
    arange CHILD_START_AGE
           (CHILD_START_AGE + Z.of_nat (length (wealth_history person))) in
  ((ages, wealth_history person),
   (tl ages,
    map2 fadd (labor_income_history person) (capital_income_history person)),
   (tl ages, consumption_history person)).

(** [np.nanmean] and [np.nanstd]: the mean and the standard deviation of
    the entries that are not NaN (NaN when there is none). *)
Definition nanmean (a : list float64) : float64 :=
  mean (filter (fun x => negb (is_nan x)) a).

Definition nanstd (a : list float64) : float64 :=
  std (filter (fun x => negb (is_nan x)) a).

(** The traces of [plot_rank_relationships], each a pair (x, y). *)
Record RankFigure : Type := {
  no_bequest : list float64 * list float64;
  positive_bequest : list float64 * list float64;
  perfect_persistence : list float64 * list float64;
  no_bequest_volatility : list float64 * list float64;
  positive_bequest_volatility : list float64 * list float64
}.

(** [plot_rank_relationships]. *)
Definition plot_rank_relationships_data
    (bin_centers mean_ranks std_ranks : list float64) : RankFigure :=
  let low := map (fun c => fltb c (Fin (1 / 10))) bin_centers in
  let high := map (fun c => fgeb c (Fin (4 / 10))) bin_centers in
  {| no_bequest := ([Fin 0], [nanmean (compress low mean_ranks)]);
     positive_bequest :=
       (compress high bin_centers, compress high mean_ranks);
     perfect_persistence := ([Fin 0; Fin 1], [Fin 0; Fin 1]);
     no_bequest_volatility := ([Fin 0], [nanstd (compress low std_ranks)]);
     positive_bequest_volatility :=
       (compress high bin_centers, compress high std_ranks) |}.

End Plotting.

Import Plotting.

(* ================================================================== *)
(** ** Calls from outside: the errors of the two entry points

    Inside a run every number that reaches [calculate_consumption] is a
    NumPy scalar, whose arithmetic raises nothing: that is the arithmetic
    of [Float64].  Called directly with Python numbers, as app.py and the
    figures' callers may, the first division of its body,
    [income / reference_income], is Python's own, which raises
    [ZeroDivisionError] on a zero divisor.  The later operations take
    the result of [np.power], a NumPy scalar, and raise nothing.
    [run_simulation] hands its population size to the array constructors
    of its first statement, which refuse a negative size. *)

Module Calls.

Inductive exception : Type :=
| ZeroDivisionError
| ValueError.

Inductive outcome (A : Type) : Type :=
| Returns (a : A)
| Raises (e : exception).

Arguments Returns {A} a.
Arguments Raises {A} e.

(** A scalar argument: a Python [int] or [float], or a NumPy scalar, each
    taken at its float value. *)
Inductive number : Type :=
| Python (x : float64)
| NumPy (x : float64).

Definition value (n : number) : float64 :=
  match n with
  | Python x => x
  | NumPy x => x
  end.

(** [x / y]: Python's division when both operands are Python numbers,
    NumPy's as soon as one of them is a NumPy scalar. *)
Definition truediv (x y : number) : outcome float64 :=
  match x, y with
  | Python a, Python b =>
      if feqb b (Fin 0) then Raises ZeroDivisionError
      else Returns (fdiv a b)
  | _, _ => Returns (fdiv (value x) (value y))
  end.

(** A call of [calculate_consumption]. *)
Definition calculate_consumption_call
    (income : number) (base_mpc : float64) (reference_income : number)
    (elasticity : float64) : outcome float64 :=
  match truediv income reference_income with
  | Raises e => Raises e
  | Returns _ =>
      Returns (calculate_consumption (value income) base_mpc
                 (value reference_income) elasticity)
  end.

(** A call of [run_simulation] with a Python integer as population size:
    [pareto.rvs(PARETO_SHAPE, size=n_people)], the first statement, raises
    on a negative size. *)
Definition run_simulation_call
    (n_people : Z) (mpc_params : option MpcParams) (rs : RandomSource)
  : outcome (list Person * list float64 * list float64) :=
  if (n_people <? 0)%Z then Raises ValueError
  else Returns (run_simulation (Z.to_nat n_people) mpc_params rs).

End Calls.

Import Calls.

(* ================================================================== *)
(** ** mpc.py on IEEE binary64 numbers

    The body of [calculate_consumption] once more, on the doubles of the
    machine with their rounding.  [np.power] is the C library's [pow],
    which the doubles of Rocq do not provide: it is an argument. *)

Module Binary64.

Import PrimFloat.
Local Open Scope float_scope.

Section WithPower.

Variable np_power : float -> float -> float.

Definition calculate_consumption64
    (income base_mpc reference_income elasticity : float) : float :=
  let alpha := elasticity + 1 in
  let scaled_income := income / reference_income in
  base_mpc * reference_income * np_power scaled_income alpha / alpha.

End WithPower.

(** MPC_BASE = 0.6 and MPC_REFERENCE_INCOME = 35000 as doubles. *)
Definition MPC_BASE64 : float := 0x1.3333333333333p-1.
Definition MPC_REFERENCE_INCOME64 : float := 35000.

(** Two neighbouring incomes: 30000 and the next double above it. *)
Definition income_30000 : float := 30000.
Definition income_above_30000 : float := next_up income_30000.

End Binary64.

(* ================================================================== *)
(** ** Predicates used in the statements *)

(** A float lies in the closed interval [0, 1]. *)
Definition in_unit_interval (x : float64) : bool :=
  fleb (Fin 0) x && fleb x (Fin 1).

(** The borrowing cap as the specification writes it:
    [totalIncome + max(wealth, 0) * borrowingLimitShare]. *)
Definition borrowing_cap (total wealth0 : float64) : float64 :=
  fadd total
       (fmul (maximum wealth0 (Fin 0)) (Fin BORROWING_LIMIT_WEALTH_SHARE)).

(** The wealth history is one entry longer than the labor-income history. *)
Definition histories_aligned (p : Person) : Prop :=
  length (wealth_history p) = S (length (labor_income_history p)).

(** The years of the run, among the first [years], at whose start the
    bequest test [child.age == death_ages[i]] succeeds for individual [i]. *)
Definition bequest_years (n_people : nat) (mpc_params : option MpcParams)
    (rs : RandomSource) (i years : nat) : list nat :=
  filter (fun year =>
            let child :=
              nth i (children_after n_people mpc_params rs year)
                  (Person_init 0 NaN None) in
            (age child =? nth i (death_ages n_people rs) 0%Z)%Z)
         (seq 0 years).

(** The bins of [calculate_rank_statistics] that select a given rank. *)
Definition bins_selecting (n_bins : nat) (rank : float64) : list nat :=
  filter (fun i => nth 0 (bin_mask [rank] n_bins i) false) (seq 0 n_bins).

(** A fixed random source, for concrete runs: every Pareto draw is 1,
    every parent dies when the child is 30, every bequest share is one
    half, and the yearly shocks are the medians of their distributions. *)
Definition median_draws : RandomSource :=
  {| pareto_rvs := fun _ => 1;
     randint := fun _ => 30%Z;
     random := fun _ => 1 / 2;
     lognormal := fun _ _ => 1;
     normal := fun _ _ => RETURN_MEAN |}.

(** A second fixed random source, in which the Pareto draws 1, 2, 3, ...
    give every parent a different wealth. *)
Definition distinct_draws : RandomSource :=
  {| pareto_rvs := fun i => INR i + 1;
     randint := fun _ => 30%Z;
     random := fun _ => 1 / 2;
     lognormal := fun _ _ => 1;
     normal := fun _ _ => RETURN_MEAN |}.

(** A parameter set with elasticity 0: the MPC is constant and consumption
    is proportional to income. *)
Definition constant_mpc_params : MpcParams :=
  {| base_mpc := Fin MPC_BASE;
     reference_income := Fin (IZR MPC_REFERENCE_INCOME);
     elasticity := Fin 0 |}.

(* ================================================================== *)
(** ** Facts about the float model *)

Ltac rdec :=
  unfold Rltb, Reqb in *;
  repeat match goal with
         | |- context [Rlt_dec ?a ?b] => destruct (Rlt_dec a b)
         | |- context [Req_dec_T ?a ?b] => destruct (Req_dec_T a b)
         | H : context [Rlt_dec ?a ?b] |- _ => destruct (Rlt_dec a b)
         | H : context [Req_dec_T ?a ?b] |- _ => destruct (Req_dec_T a b)
         end;
  try reflexivity; try discriminate; try contradiction; try lra;
  try (exfalso; lra).

Lemma Rltb_true (x y : R) : x < y -> Rltb x y = true.
Proof. intros; rdec. Qed.

Lemma Rltb_false (x y : R) : y <= x -> Rltb x y = false.
Proof. intros; rdec. Qed.

Lemma Reqb_true (x y : R) : x = y -> Reqb x y = true.
Proof. intros; rdec. Qed.

Lemma Reqb_false (x y : R) : x <> y -> Reqb x y = false.
Proof. intros; rdec. Qed.

Lemma Rltb_spec (x y : R) : Rltb x y = true <-> x < y.
Proof. split; intros; rdec. Qed.

Lemma Reqb_spec (x y : R) : Reqb x y = true <-> x = y.
Proof. split; intros; rdec. Qed.

(** Settles every comparison of concrete reals in the goal. *)
Ltac decide_reals :=
  repeat match goal with
         | |- context [Rltb ?a ?b] =>
             first [ rewrite (Rltb_true a b) by lra
                   | rewrite (Rltb_false a b) by lra ]
         | |- context [Reqb ?a ?b] =>
             first [ rewrite (Reqb_true a b) by lra
                   | rewrite (Reqb_false a b) by lra ]
         end.

Lemma fleb_Fin (a b : R) : fleb (Fin a) (Fin b) = true <-> a <= b.
Proof.
  unfold fleb; simpl. rewrite orb_true_iff, Rltb_spec, Reqb_spec. lra.
Qed.

Lemma feqb_refl (x : float64) : is_nan x = false -> feqb x x = true.
Proof. destruct x; simpl; intros; try discriminate; rdec. Qed.

(** A positive finite base: [np.power] is the real power function. *)
Lemma power_pos (a b : R) : 0 < a -> power (Fin a) (Fin b) = Fin (Rpower a b).
Proof.
  intros Ha. unfold power. simpl.
  destruct (Reqb b 0) eqn:Eb.
  - apply Reqb_spec in Eb. subst b. now rewrite Rpower_O.
  - destruct (Reqb a 1) eqn:Ea.
    + apply Reqb_spec in Ea. subst a.
      unfold Rpower. now rewrite ln_1, Rmult_0_r, exp_0.
    + now rewrite Rltb_true.
Qed.

Lemma power_zero_exponent (x : float64) (b : R) :
  b = 0 -> power x (Fin b) = Fin 1.
Proof. intros ->. unfold power. simpl. now rewrite Reqb_true. Qed.

(** A real that is not an integer fails the integer test of [np.power]. *)
Lemma is_int_false (b : R) :
  (forall z : Z, IZR z <> b) -> is_int b = false.
Proof. intros H. unfold is_int. apply Reqb_false, H. Qed.

Lemma three_tenths_not_int (z : Z) : IZR z <> - (7 / 10) + 1.
Proof.
  intros H.
  assert (H3 : IZR (z * 10) = IZR 3) by (rewrite mult_IZR, H; lra).
  apply eq_IZR in H3. lia.
Qed.

(** A negative finite base with a non-integer exponent is NaN. *)
Lemma power_neg_nonint (a b : R) :
  a < 0 -> (forall z : Z, IZR z <> b) -> power (Fin a) (Fin b) = NaN.
Proof.
  intros Ha Hb. unfold power. simpl.
  assert (b <> 0) by (intros ->; now apply (Hb 0%Z)).
  rewrite (Reqb_false b 0), (Reqb_false a 1), (Rltb_false 0 a),
    (Reqb_false a 0), is_int_false by (assumption || lra).
  reflexivity.
Qed.

Lemma fadd_NaN_r (x : float64) : fadd x NaN = NaN.
Proof. now destruct x. Qed.

Lemma minimum_NaN_r (x : float64) : minimum x NaN = NaN.
Proof. now destruct x. Qed.

Lemma minimum_not_above (x y : float64) : fgtb (minimum x y) y = false.
Proof.
  unfold fgtb.
  destruct x as [a| | |], y as [b| | |]; simpl; try reflexivity;
    try (destruct (Rltb b a) eqn:E; simpl); rdec.
Qed.

Lemma minimum_le (x y : float64) :
  is_nan (minimum x y) = false -> fleb (minimum x y) y = true.
Proof.
  unfold fleb.
  destruct x as [a| | |], y as [b| | |]; simpl; try reflexivity;
    try discriminate; try (destruct (Rltb b a) eqn:E; simpl);
    intros _; rdec.
Qed.

(* ================================================================== *)
(** ** The consumption rule *)

Section ConsumptionRule.

Variables b ref e : R.

(** With elasticity -1 the exponent is zero, the power is 1 and the final
    division is a division by zero. *)
Lemma consumption_at_singularity (income : float64) :
  calculate_consumption income (Fin b) (Fin ref) (Fin (-1))
  = signed_inf (b * ref).
Proof.
  unfold calculate_consumption. simpl fadd.
  rewrite power_zero_exponent by lra. simpl.
  rewrite Reqb_true by lra. f_equal. lra.
Qed.

Hypothesis ref_pos : 0 < ref.
Hypothesis e_regular : e <> -1.

(** On positive incomes the code computes the closed form over the reals. *)
Lemma consumption_closed_form (x : R) :
  0 < x ->
  calculate_consumption (Fin x) (Fin b) (Fin ref) (Fin e)
  = Fin (b * ref * Rpower (x / ref) (e + 1) / (e + 1)).
Proof.
  intros Hx. unfold calculate_consumption. simpl fadd. simpl fdiv at 2.
  rewrite (Reqb_false ref 0) by lra.
  rewrite power_pos by (apply Rdiv_lt_0_compat; lra).
  simpl. rewrite Reqb_false by lra. reflexivity.
Qed.

Lemma closed_form_increasing (x y : R) :
  0 < b -> 0 < x < y ->
  b * ref * Rpower (x / ref) (e + 1) / (e + 1)
  < b * ref * Rpower (y / ref) (e + 1) / (e + 1).
Proof.
  intros Hb [Hx Hxy].
  assert (Hsx : 0 < x / ref) by (apply Rdiv_lt_0_compat; lra).
  assert (Hs : x / ref < y / ref).
  { unfold Rdiv. apply Rmult_lt_compat_r; [apply Rinv_0_lt_compat|]; lra. }
  assert (Hbr : 0 < b * ref) by nra.
  destruct (Rlt_dec 0 (e + 1)) as [Hpos | Hneg].
  - assert (Hp : Rpower (x / ref) (e + 1) < Rpower (y / ref) (e + 1))
      by (apply Rlt_Rpower_l; lra).
    unfold Rdiv. apply Rmult_lt_compat_r; [apply Rinv_0_lt_compat; lra|].
    apply Rmult_lt_compat_l; assumption.
  - assert (Ha : 0 < - (e + 1)) by lra.
    assert (Hp : Rpower (x / ref) (- (e + 1)) < Rpower (y / ref) (- (e + 1)))
      by (apply Rlt_Rpower_l; lra).
    assert (Hpx : 0 < Rpower (x / ref) (- (e + 1))) by apply exp_pos.
    assert (Hq : / Rpower (y / ref) (- (e + 1))
                 < / Rpower (x / ref) (- (e + 1)))
      by (apply Rinv_lt_contravar; [apply Rmult_lt_0_compat; lra | lra]).
    rewrite <- !Rpower_Ropp, !Ropp_involutive in Hq.
    replace (b * ref * Rpower (x / ref) (e + 1) / (e + 1))
      with (b * ref * Rpower (x / ref) (e + 1) * - / - (e + 1))
      by (field; lra).
    replace (b * ref * Rpower (y / ref) (e + 1) / (e + 1))
      with (b * ref * Rpower (y / ref) (e + 1) * - / - (e + 1))
      by (field; lra).
    assert (Hi : 0 < / - (e + 1)) by (apply Rinv_0_lt_compat; lra).
    assert (Hk : 0 < b * ref * / - (e + 1))
      by (apply Rmult_lt_0_compat; assumption).
    assert (Hm : b * ref * / - (e + 1) * Rpower (y / ref) (e + 1)
                 < b * ref * / - (e + 1) * Rpower (x / ref) (e + 1))
      by (apply Rmult_lt_compat_l; assumption).
    lra.
Qed.

End ConsumptionRule.

(** At the reference income the MPC is the base MPC: the scaled income is
    1, and 1 to any power is 1. *)
Example mpc_at_reference_income :
  calculate_mpc (Fin 35000) (Fin MPC_BASE) (Fin (IZR MPC_REFERENCE_INCOME))
    (Fin MPC_ELASTICITY) = Fin MPC_BASE.
Proof.
  unfold calculate_mpc, MPC_REFERENCE_INCOME, MPC_ELASTICITY.
  simpl fdiv. rewrite Reqb_false by lra.
  simpl maximum. rewrite Rltb_false by lra.
  unfold power. simpl feqb.
  rewrite Reqb_false, Reqb_true by lra.
  simpl. f_equal. lra.
Qed.

(** C8 (as the code behaves). For base_mpc > 0, reference_income > 0 and
    elasticity other than -1, [calculate_consumption] never decreases on
    positive incomes: for 0 < x <= y, consumption(y) < consumption(x) does
    not hold. *)
Theorem consumption_nondecreasing (b ref e x y : R) :
  0 < b -> 0 < ref -> e <> -1 -> 0 < x <= y ->
  fltb (calculate_consumption (Fin y) (Fin b) (Fin ref) (Fin e))
       (calculate_consumption (Fin x) (Fin b) (Fin ref) (Fin e)) = false.
Proof.
  intros Hb Href He [Hx [Hxy | ->]].
  - rewrite !consumption_closed_form by lra.
    pose proof (closed_form_increasing b ref e Href He x y Hb
                  (conj Hx Hxy)) as Hlt.
    cbn [fltb]. apply Rltb_false. lra.
  - rewrite consumption_closed_form by lra.
    cbn [fltb]. apply Rltb_false. lra.
Qed.

Lemma consumption_nondecreasing_witness :
  fltb (calculate_consumption (Fin 2000) (Fin MPC_BASE)
          (Fin (IZR MPC_REFERENCE_INCOME)) (Fin MPC_ELASTICITY))
       (calculate_consumption (Fin 1000) (Fin MPC_BASE)
          (Fin (IZR MPC_REFERENCE_INCOME)) (Fin MPC_ELASTICITY)) = false.
Proof.
  apply consumption_nondecreasing;
    unfold MPC_BASE, MPC_REFERENCE_INCOME, MPC_ELASTICITY; lra.
Defined.

(** C8, refuted as stated: the increase is not strict on the doubles.
    With the default base MPC and reference income and elasticity 0, the
    income 30000 and the next double above it have the same consumption,
    for every power function that returns its base at exponent 1 (as the
    C [pow] does). *)
Lemma consumption_ties_on_doubles :
  PrimFloat.ltb Binary64.income_30000 Binary64.income_above_30000 = true
  /\ (forall np_power : PrimFloat.float -> PrimFloat.float -> PrimFloat.float,
        (forall s, np_power s PrimFloat.one = s) ->
        Binary64.calculate_consumption64 np_power Binary64.income_30000
          Binary64.MPC_BASE64 Binary64.MPC_REFERENCE_INCOME64 PrimFloat.zero
        = Binary64.calculate_consumption64 np_power
            Binary64.income_above_30000
            Binary64.MPC_BASE64 Binary64.MPC_REFERENCE_INCOME64
            PrimFloat.zero).
Proof.
  split; [reflexivity|].
  intros np_power Hone. unfold Binary64.calculate_consumption64.
  change (PrimFloat.add PrimFloat.zero _) with PrimFloat.one.
  rewrite !Hone. reflexivity.
Qed.

(* ================================================================== *)
(** ** Facts about the array operations *)

Section ArrayFacts.

Context {A B C : Type}.

Lemma length_map2 (f : A -> B -> C) (xs : list A) (ys : list B) :
  length xs = length ys -> length (map2 f xs ys) = length xs.
Proof.
  revert ys. induction xs as [|x xs IH]; intros [|y ys] H; simpl in *;
    try discriminate; auto.
Qed.

Lemma length_enumerate (xs : list A) : length (enumerate xs) = length xs.
Proof.
  unfold enumerate. rewrite length_combine, length_seq. lia.
Qed.

Lemma length_compress (mask : list bool) (a : list A) :
  length mask = length a -> length (compress mask a) = count_true mask.
Proof.
  unfold count_true. revert a.
  induction mask as [|[|] mask IH]; intros [|x a] H; simpl in *;
    try discriminate; auto.
Qed.

Lemma Forall_compress (P : A -> Prop) (mask : list bool) (a : list A) :
  Forall P a -> Forall P (compress mask a).
Proof.
  intros H. revert mask. induction H as [|x a Hx Ha IH]; intros [|[|] mask];
    simpl; auto.
Qed.

Lemma In_compress (mask : list bool) (a : list A) (i : nat) (d : A) :
  (i < length a)%nat -> nth i mask false = true ->
  In (nth i a d) (compress mask a).
Proof.
  revert a i. induction mask as [|m mask IH]; intros [|x a] i Hi Hm;
    simpl in *; try lia.
  - destruct i; discriminate.
  - destruct i as [|i].
    + subst m. now left.
    + destruct m; [right|]; apply IH; auto; lia.
Qed.

Lemma length_assign_mask (a : list A) (mask : list bool) (vals : list A) :
  length (assign_mask a mask vals) = length a.
Proof.
  revert mask vals. induction a as [|x a IH]; intros [|[|] mask] vals;
    simpl; auto.
  destruct vals; simpl; auto.
Qed.

(** Assigning [g] of the selected entries of [src] back under the same
    mask: selected positions hold [g] of their own entry, the others keep
    their old value. *)
Lemma nth_assign_mask (g : A -> A) (a src : list A) (mask : list bool)
    (i : nat) (d : A) :
  length a = length mask -> length src = length mask ->
  (i < length a)%nat ->
  nth i (assign_mask a mask (map g (compress mask src))) d
  = if nth i mask false then g (nth i src d) else nth i a d.
Proof.
  revert src mask i.
  induction a as [|x a IH]; intros [|s src] [|m mask] i Ha Hs Hi;
    simpl in *; try discriminate; try lia.
  destruct m; simpl; destruct i as [|i]; try reflexivity; apply IH; lia.
Qed.

Lemma filter_disjoint_length (f g : A -> bool) (l : list A) :
  (forall x, f x = true -> g x = true -> False) ->
  (length (filter f l) + length (filter g l) <= length l)%nat.
Proof.
  intros H. induction l as [|x l IH]; simpl; [lia|].
  destruct (f x) eqn:Ef, (g x) eqn:Eg; simpl; try lia.
  exfalso. eauto.
Qed.

Lemma filter_In_length (f : A -> bool) (l : list A) (x : A) :
  In x l -> f x = true -> (1 <= length (filter f l))%nat.
Proof.
  intros Hin Hf.
  assert (Hx : In x (filter f l)) by (apply filter_In; auto).
  destruct (filter f l); [contradiction | simpl; lia].
Qed.

(** A predicate satisfied by at most one value selects at most one entry
    of a duplicate-free list. *)
Lemma filter_at_most_one (f : A -> bool) (l : list A) :
  NoDup l ->
  (forall x y, In x l -> In y l -> f x = true -> f y = true -> x = y) ->
  (length (filter f l) <= 1)%nat.
Proof.
  induction 1 as [|x l Hx Hnd IH]; intros Huniq; simpl; [lia|].
  destruct (f x) eqn:Ef.
  - assert (Hnil : filter f l = []).
    { destruct (filter f l) as [|y r] eqn:E; [reflexivity|].
      assert (Hy : In y (filter f l)) by (rewrite E; now left).
      apply filter_In in Hy. destruct Hy as [Hy Hfy].
      exfalso. apply Hx.
      rewrite (Huniq x y); simpl; auto. }
    rewrite Hnil. simpl. lia.
  - apply IH. intros; apply Huniq; simpl; auto.
Qed.

End ArrayFacts.

Lemma length_zeros (n : nat) : length (zeros n) = n.
Proof. apply repeat_length. Qed.

Lemma nth_zeros (n i : nat) : nth i (zeros n) (Fin 0) = Fin 0.
Proof.
  unfold zeros. revert i. induction n; intros [|i]; simpl; auto.
Qed.

Lemma length_rankdata (a : list float64) : length (rankdata a) = length a.
Proof.
  unfold rankdata. destruct (existsb is_nan a); apply length_map.
Qed.

Lemma existsb_is_nan_finite (a : list float64) :
  Forall (fun x => is_finite x = true) a -> existsb is_nan a = false.
Proof.
  induction 1 as [|x a Hx _ IH]; simpl; [reflexivity|].
  rewrite IH. destruct x; simpl in *; auto; discriminate.
Qed.

Lemma existsb_is_nan_false (a : list float64) :
  Forall (fun x => is_nan x = false) a -> existsb is_nan a = false.
Proof.
  induction 1 as [|x a Hx _ IH]; simpl; [reflexivity|].
  now rewrite Hx, IH.
Qed.

Lemma flt_feq_disjoint (x y : float64) :
  fltb y x = true -> feqb y x = true -> False.
Proof.
  destruct x, y; simpl; try discriminate. intros H1 H2.
  apply Rltb_spec in H1. apply Reqb_spec in H2. lra.
Qed.

(** Average ranks lie between 1 and the length of the array. *)
Lemma average_rank_bounds (a : list float64) (x : float64) :
  In x a -> is_nan x = false ->
  1 <= average_rank a x <= INR (length a).
Proof.
  intros Hin Hx. unfold average_rank, count_lt, count_eq.
  pose proof (filter_disjoint_length (fun y => fltb y x) (fun y => feqb y x) a
                (fun y => flt_feq_disjoint x y)) as Hsum.
  pose proof (filter_In_length (fun y => feqb y x) a x Hin (feqb_refl x Hx))
    as Heq.
  apply le_INR in Hsum. rewrite plus_INR in Hsum.
  apply le_INR in Heq. simpl in Heq.
  pose proof (pos_INR (length (filter (fun y => fltb y x) a))).
  lra.
Qed.

(* ================================================================== *)
(** ** Structure of a run *)

Section RunFacts.

Variable n_people : nat.
Variable mpc_params : option MpcParams.
Variable rs : RandomSource.

Lemma length_parent_wealth : length (parent_wealth n_people rs) = n_people.
Proof. unfold parent_wealth. now rewrite length_map, length_seq. Qed.

Lemma length_parent_ranks : length (parent_ranks n_people rs) = n_people.
Proof.
  unfold parent_ranks.
  now rewrite length_map, length_rankdata, length_parent_wealth.
Qed.

Lemma length_initial_children :
  length (initial_children n_people rs) = n_people.
Proof.
  unfold initial_children. now rewrite length_map, length_parent_ranks.
Qed.

Lemma length_death_ages : length (death_ages n_people rs) = n_people.
Proof. unfold death_ages. now rewrite length_map, length_seq. Qed.

Lemma length_bequest_shares : length (bequest_shares n_people rs) = n_people.
Proof. unfold bequest_shares. now rewrite length_map, length_seq. Qed.

Lemma length_bequests : length (bequests n_people rs) = n_people.
Proof.
  assert (Hpw : length (map2 fmul (parent_wealth n_people rs)
                            (bequest_shares n_people rs)) = n_people).
  { rewrite length_map2; rewrite length_parent_wealth; auto.
    now rewrite length_bequest_shares. }
  unfold bequests, will_get_bequest.
  rewrite length_map2; rewrite length_map, length_parent_ranks; auto.
Qed.

Lemma length_simulate_all (year : nat) (children : list Person) :
  length (simulate_all n_people mpc_params rs year children)
  = length children.
Proof. unfold simulate_all. now rewrite length_map, length_enumerate. Qed.

Lemma children_after_S (k : nat) :
  children_after n_people mpc_params rs (S k)
  = simulate_all n_people mpc_params rs k
      (children_after n_people mpc_params rs k).
Proof.
  unfold children_after. now rewrite seq_S, fold_left_app.
Qed.

Lemma length_children_after (k : nat) :
  length (children_after n_people mpc_params rs k) = n_people.
Proof.
  induction k as [|k IH].
  - apply length_initial_children.
  - now rewrite children_after_S, length_simulate_all.
Qed.

Lemma In_simulate_all (year : nat) (children : list Person) (c : Person) :
  In c (simulate_all n_people mpc_params rs year children) ->
  exists i c0,
    In c0 children /\ c = child_year n_people mpc_params rs year i c0.
Proof.
  unfold simulate_all. intros H. apply in_map_iff in H.
  destruct H as [[i c0] [Hc Hin]]. exists i, c0. split; [|now subst].
  unfold enumerate in Hin. now apply in_combine_r in Hin.
Qed.

(** Induction over the years of a run, one child at a time. *)
Lemma children_after_ind (P : nat -> Person -> Prop) :
  (forall c, In c (initial_children n_people rs) -> P 0%nat c) ->
  (forall k i c, P k c -> P (S k) (child_year n_people mpc_params rs k i c)) ->
  forall k c, In c (children_after n_people mpc_params rs k) -> P k c.
Proof.
  intros H0 HS. induction k as [|k IH]; intros c Hc.
  - now apply H0.
  - rewrite children_after_S in Hc. apply In_simulate_all in Hc.
    destruct Hc as (i & c0 & Hin & ->). now apply HS, IH.
Qed.

Lemma age_child_year (year i : nat) (c : Person) :
  age (child_year n_people mpc_params rs year i c) = (age c + 1)%Z.
Proof.
  unfold child_year.
  destruct (age c =? nth i (death_ages n_people rs) 0)%Z; reflexivity.
Qed.

(** After [k] years every child is [CHILD_START_AGE + k] years old. *)
Lemma age_children_after (k : nat) (c : Person) :
  In c (children_after n_people mpc_params rs k) ->
  age c = (CHILD_START_AGE + Z.of_nat k)%Z.
Proof.
  revert k c. apply children_after_ind.
  - intros c Hc. unfold initial_children in Hc. apply in_map_iff in Hc.
    destruct Hc as (r & <- & _). simpl. lia.
  - intros k i c IH. rewrite age_child_year, IH. lia.
Qed.

Lemma histories_child_year (year i : nat) (c : Person) :
  length (wealth_history (child_year n_people mpc_params rs year i c))
  = S (length (wealth_history c))
  /\ length (labor_income_history (child_year n_people mpc_params rs year i c))
     = S (length (labor_income_history c))
  /\ length (consumption_history (child_year n_people mpc_params rs year i c))
     = S (length (consumption_history c)).
Proof.
  unfold child_year.
  destruct (age c =? nth i (death_ages n_people rs) 0)%Z; simpl;
    rewrite !length_app; simpl; lia.
Qed.

(** After [k] years every child has [k + 1] wealth entries and [k] entries
    of labor income and of consumption. *)
Lemma histories_children_after (k : nat) (c : Person) :
  In c (children_after n_people mpc_params rs k) ->
  length (wealth_history c) = S k
  /\ length (labor_income_history c) = k
  /\ length (consumption_history c) = k.
Proof.
  revert k c. apply children_after_ind.
  - intros c Hc. unfold initial_children in Hc. apply in_map_iff in Hc.
    destruct Hc as (r & <- & _). simpl. auto.
  - intros k i c (Hw & Hl & Hc).
    destruct (histories_child_year k i c) as (Hw' & Hl' & Hc'). lia.
Qed.

Lemma base_labor_income_child_year (year i : nat) (c : Person) :
  base_labor_income (child_year n_people mpc_params rs year i c)
  = base_labor_income c
  /\ parent_wealth_rank (child_year n_people mpc_params rs year i c)
     = parent_wealth_rank c.
Proof.
  unfold child_year.
  destruct (age c =? nth i (death_ages n_people rs) 0)%Z; simpl; auto.
Qed.

End RunFacts.

(* ================================================================== *)
(** ** Settled properties: the life cycle *)

(** With elasticity -1 the exponent [alpha] is zero and the last division
    of [calculate_consumption] is a division by zero: whatever the other
    arguments, the value returned is an infinity or NaN. *)
Lemma consumption_singular_not_finite (income b ref : float64) :
  is_finite (calculate_consumption income b ref (Fin (-1))) = false.
Proof.
  unfold calculate_consumption. cbn [fadd].
  replace (-1 + 1) with 0 by lra.
  unfold power. cbn [feqb]. rewrite Reqb_true by reflexivity.
  destruct (fmul (fmul b ref) (Fin 1)) as [a| | |]; cbn [fdiv].
  - rewrite Reqb_true by reflexivity. unfold signed_inf.
    destruct (Rltb 0 a); [reflexivity|].
    destruct (Rltb a 0); reflexivity.
  - rewrite Rltb_false by lra. reflexivity.
  - rewrite Rltb_false by lra. reflexivity.
  - reflexivity.
Qed.

(** C1 (as the code behaves). Nothing validates the configuration.  A call
    of [calculate_consumption] raises in one case only, whatever the
    elasticity: when income and reference income are both Python numbers
    and the reference income is zero, its first division raises
    ZeroDivisionError.  In every other case a call with elasticity -1
    raises nothing and returns a value that is not finite (an infinity
    or NaN).  [run_simulation] checks none of its parameters either: a
    negative population size is refused by the array constructor of its
    first statement, before the loop; for every other size and every
    parameter set it runs the whole loop, so each of the [n_people]
    children returned has 60 recorded consumptions, and with
    [n_people = 0] it returns three empty collections. *)
Theorem no_configuration_check :
  (forall income b ref e,
      calculate_consumption_call income b ref e = Raises ZeroDivisionError
      <-> exists x, income = Python x /\ ref = Python (Fin 0))
  /\ (forall income b ref,
        calculate_consumption_call income b ref (Fin (-1))
        = Raises ZeroDivisionError
        \/ exists v,
            calculate_consumption_call income b ref (Fin (-1)) = Returns v
            /\ is_finite v = false)
  /\ (forall n_people mpc_params rs,
        (0 <= n_people)%Z ->
        exists children bequest_ranks wealth_ranks,
          run_simulation_call n_people mpc_params rs
          = Returns (children, bequest_ranks, wealth_ranks)
          /\ length children = Z.to_nat n_people
          /\ Forall (fun c => length (consumption_history c) = 60%nat)
                    children)
  /\ (forall n_people mpc_params rs,
        (n_people < 0)%Z ->
        run_simulation_call n_people mpc_params rs = Raises ValueError)
  /\ (forall mpc_params rs,
        run_simulation_call 0 mpc_params rs = Returns ([], [], [])).
Proof.
  split; [|split; [|split; [|split]]].
  - intros income b ref e. unfold calculate_consumption_call, truediv.
    split.
    + destruct income as [x|x], ref as [z|z]; try discriminate.
      destruct z as [r| | |]; cbn [feqb]; try discriminate.
      destruct (Reqb r 0) eqn:E; [|discriminate].
      intros _. exists x. split; [reflexivity|].
      do 2 f_equal. revert E. rdec.
    + intros (x & -> & ->). cbn [feqb].
      rewrite Reqb_true by reflexivity. reflexivity.
  - intros income b ref. unfold calculate_consumption_call.
    destruct (truediv income ref) as [q|e] eqn:E.
    + right. eexists. split; [reflexivity|].
      apply consumption_singular_not_finite.
    + left. f_equal. unfold truediv in E.
      destruct income as [x|x], ref as [z|z]; try discriminate.
      destruct (feqb z (Fin 0)); congruence.
  - intros n mp rs Hn. unfold run_simulation_call.
    replace (n <? 0)%Z with false by (symmetry; apply Z.ltb_ge; lia).
    unfold run_simulation. do 3 eexists. split; [reflexivity|]. split.
    + apply length_children_after.
    + apply Forall_forall. intros c Hc.
      now apply histories_children_after in Hc.
  - intros n mp rs Hn. unfold run_simulation_call.
    replace (n <? 0)%Z with true by (symmetry; apply Z.ltb_lt; lia).
    reflexivity.
  - intros. reflexivity.
Qed.

(** C1, refuted as stated: called with Python numbers, elasticity -1 and
    the default base MPC and reference income, the consumption of an
    income of 50000 raises nothing: +infinity is returned as a value. *)
Lemma consumption_singular_returns_infinity :
  calculate_consumption_call (Python (Fin 50000)) (Fin MPC_BASE)
    (Python (Fin (IZR MPC_REFERENCE_INCOME))) (Fin (-1)) = Returns PInf.
Proof.
  unfold calculate_consumption_call, truediv. cbn [feqb value].
  rewrite Reqb_false by (unfold MPC_REFERENCE_INCOME; lra).
  rewrite consumption_at_singularity. unfold signed_inf.
  rewrite Rltb_true; [reflexivity|].
  unfold MPC_BASE, MPC_REFERENCE_INCOME. lra.
Qed.

(** A negative income with a non-integer exponent [elasticity + 1]: the
    power is NaN and so is the consumption.  [calculate_consumption] has no
    floor on the scaled income. *)
Lemma consumption_negative_income (x b ref e : R) :
  x < 0 -> 0 < ref -> (forall z : Z, IZR z <> e + 1) ->
  calculate_consumption (Fin x) (Fin b) (Fin ref) (Fin e) = NaN.
Proof.
  intros Hx Href He. unfold calculate_consumption.
  simpl fadd. simpl fdiv at 2. rewrite (Reqb_false ref 0) by lra.
  rewrite power_neg_nonint; [reflexivity| |assumption].
  assert (0 < - x / ref) by (apply Rdiv_lt_0_compat; lra).
  replace (x / ref) with (- (- x / ref)) by (field; lra). lra.
Qed.

(** C3, evaluated where it fails.  With the default parameters the
    consumption of an income of -1000 is NaN; and a person holding
    1,000,000 whose return draw is -10% has a total income of -50,000 in
    the first year, a NaN consumption and a NaN wealth afterwards. *)
Theorem consumption_unguarded_at_negative_income :
  calculate_consumption (Fin (-1000)) (Fin MPC_BASE)
    (Fin (IZR MPC_REFERENCE_INCOME)) (Fin MPC_ELASTICITY) = NaN
  /\ (let p := Person_init CHILD_START_AGE (Fin 1000000) None in
      let f := year_flows p 0 None 1 (- (1 / 10)) in
      total_income f = Fin (-50000)
      /\ consumption f = NaN
      /\ wealth (simulate_year p 0 None 1 (- (1 / 10))) = NaN).
Proof.
  assert (Hneg : forall x, x < 0 ->
            calculate_consumption (Fin x) (Fin MPC_BASE)
              (Fin (IZR MPC_REFERENCE_INCOME)) (Fin MPC_ELASTICITY) = NaN).
  { intros x Hx. apply consumption_negative_income; trivial.
    - unfold MPC_REFERENCE_INCOME. lra.
    - apply three_tenths_not_int. }
  split; [apply Hneg; lra|].
  assert (Ht : total_income
                 (year_flows (Person_init CHILD_START_AGE (Fin 1000000) None)
                             0 None 1 (- (1 / 10))) = Fin (-50000)).
  { unfold year_flows, get_labor_income, get_capital_income. simpl.
    f_equal. unfold BASE_INCOME. lra. }
  assert (Hc : consumption
                 (year_flows (Person_init CHILD_START_AGE (Fin 1000000) None)
                             0 None 1 (- (1 / 10))) = NaN).
  { unfold year_flows in *. cbn [consumption total_income] in *.
    rewrite Ht. cbn [default_mpc_params base_mpc reference_income elasticity].
    rewrite Hneg by lra. reflexivity. }
  cbv zeta. split; [exact Ht|]. split; [exact Hc|].
  unfold simulate_year. cbn [wealth]. rewrite Hc, Ht. reflexivity.
Qed.

(** With a non-NaN wealth, the borrowing room the code computes with
    [np.where] is [max(wealth, 0) * BORROWING_LIMIT_WEALTH_SHARE]. *)
Lemma borrowing_available_max (w : float64) :
  is_nan w = false ->
  where_ (fgtb w (Fin 0)) (fmul w (Fin BORROWING_LIMIT_WEALTH_SHARE)) (Fin 0)
  = fmul (maximum w (Fin 0)) (Fin BORROWING_LIMIT_WEALTH_SHARE).
Proof.
  unfold BORROWING_LIMIT_WEALTH_SHARE, where_, fgtb, signed_inf.
  destruct w as [a| | |]; simpl; try discriminate; intros _.
  - destruct (Rltb 0 a) eqn:E0, (Rltb a 0) eqn:E1; simpl;
      try reflexivity; f_equal; rdec.
  - rdec.
  - f_equal. lra.
Qed.

(** C4. In every call of [simulate_year], for every person, parameter set
    and pair of draws, the consumption appended to the history never
    exceeds [totalIncome + max(wealth, 0) * BORROWING_LIMIT_WEALTH_SHARE],
    [wealth] being the wealth when the call starts; unless it is NaN it is
    at most that cap. *)
Theorem consumption_within_borrowing_cap
    (self : Person) (years_worked : nat) (mpc_params : option MpcParams)
    (lognormal_draw normal_draw : R) :
  let f := year_flows self years_worked mpc_params lognormal_draw normal_draw in
  let cap := borrowing_cap (total_income f) (wealth self) in
  consumption_history
    (simulate_year self years_worked mpc_params lognormal_draw normal_draw)
  = consumption_history self ++ [consumption f]
  /\ fgtb (consumption f) cap = false
  /\ (is_nan (consumption f) = false -> fleb (consumption f) cap = true).
Proof.
  cbv zeta. split; [reflexivity|].
  unfold borrowing_cap, year_flows. cbn [consumption total_income].
  destruct (is_nan (wealth self)) eqn:Hw.
  - unfold get_capital_income.
    destruct (wealth self); try discriminate.
    cbn [fmul]. rewrite fadd_NaN_r. cbn [fadd]. rewrite minimum_NaN_r.
    split; [reflexivity | discriminate].
  - rewrite borrowing_available_max by assumption.
    split; [apply minimum_not_above | apply minimum_le].
Qed.

(** C7. The wealth history is always one entry longer than the labor-income
    history: at creation (one entry against none), across every call of
    [simulate_year] and every bequest payment, and hence for every child of
    a run after any number [k] of simulated years, when the wealth history
    has [k + 1] entries; the children returned after the 60 years have 61. *)
Theorem wealth_history_one_longer :
  (forall age0 initial_wealth parent_rank,
      histories_aligned (Person_init age0 initial_wealth parent_rank))
  /\ (forall p years_worked mpc_params lognormal_draw normal_draw,
        histories_aligned p ->
        histories_aligned
          (simulate_year p years_worked mpc_params lognormal_draw normal_draw))
  /\ (forall p amount,
        histories_aligned p -> histories_aligned (add_wealth p amount))
  /\ (forall n_people mpc_params rs k c,
        In c (children_after n_people mpc_params rs k) ->
        histories_aligned c /\ length (wealth_history c) = S k)
  /\ (forall n_people mpc_params rs,
        let '(children, _, _) := run_simulation n_people mpc_params rs in
        Forall (fun c => length (wealth_history c) = 61%nat) children).
Proof.
  unfold histories_aligned. split; [|split; [|split; [|split]]].
  - reflexivity.
  - intros p y mp l d H. simpl. rewrite !length_app. simpl. lia.
  - intros p x H. exact H.
  - intros n mp rs k c H. apply histories_children_after in H. lia.
  - intros n mp rs. unfold run_simulation.
    apply Forall_forall. intros c Hc.
    now apply histories_children_after in Hc.
Qed.

Lemma wealth_history_one_longer_witness :
  histories_aligned
    (simulate_year (Person_init CHILD_START_AGE (Fin 0) None) 0 None 1 0)
  /\ length (wealth_history
               (nth 0 (children_after 1 None median_draws 60)
                    (Person_init 0 NaN None))) = 61%nat.
Proof.
  destruct wealth_history_one_longer as (Hinit & Hstep & _ & Hrun & _).
  split.
  - apply Hstep, Hinit.
  - apply (Hrun 1%nat None median_draws 60%nat).
    apply nth_In. rewrite length_children_after. lia.
Defined.

(** C10. A person created without a parent wealth rank has exactly
    [BASE_INCOME] as base labor income; one created with rank [r] has
    [BASE_INCOME * (1 + PARENT_WEALTH_EFFECT * r)].  The value is set at
    creation only: neither [simulate_year] nor a bequest payment changes
    it, so every child of a run keeps, in every year, the value computed
    from its parent rank. *)
Theorem base_labor_income_set_at_creation :
  (forall age0 initial_wealth,
      base_labor_income (Person_init age0 initial_wealth None)
      = Fin (IZR BASE_INCOME))
  /\ (forall age0 initial_wealth r,
        base_labor_income (Person_init age0 initial_wealth (Some (Fin r)))
        = Fin (IZR BASE_INCOME * (1 + PARENT_WEALTH_EFFECT * r)))
  /\ (forall p years_worked mpc_params lognormal_draw normal_draw,
        base_labor_income
          (simulate_year p years_worked mpc_params lognormal_draw normal_draw)
        = base_labor_income p)
  /\ (forall p amount,
        base_labor_income (add_wealth p amount) = base_labor_income p)
  /\ (forall n_people mpc_params rs k c,
        In c (children_after n_people mpc_params rs k) ->
        exists r,
          parent_wealth_rank c = Some r
          /\ base_labor_income c
             = fmul (Fin (IZR BASE_INCOME))
                    (fadd (Fin 1) (fmul (Fin PARENT_WEALTH_EFFECT) r))).
Proof.
  split; [|split; [|split; [|split]]]; try reflexivity.
  intros n mp rs. apply children_after_ind.
  - intros c Hc. unfold initial_children in Hc. apply in_map_iff in Hc.
    destruct Hc as (r & <- & _). exists r. simpl. auto.
  - intros k i c (r & Hr & Hb). exists r.
    destruct (base_labor_income_child_year n mp rs k i c) as [-> ->]. auto.
Qed.

Lemma base_labor_income_set_at_creation_witness :
  exists r,
    parent_wealth_rank
      (nth 0 (children_after 1 None median_draws 60) (Person_init 0 NaN None))
    = Some r
    /\ base_labor_income
         (nth 0 (children_after 1 None median_draws 60)
              (Person_init 0 NaN None))
       = fmul (Fin (IZR BASE_INCOME))
              (fadd (Fin 1) (fmul (Fin PARENT_WEALTH_EFFECT) r)).
Proof.
  destruct base_labor_income_set_at_creation as (_ & _ & _ & _ & Hrun).
  apply (Hrun 1%nat None median_draws 60%nat).
  apply nth_In. rewrite length_children_after. lia.
Defined.

(* ================================================================== *)
(** ** Bequest ranks *)

Lemma Forall_map2_in {A B C : Type} (PA : A -> Prop) (PB : B -> Prop)
    (P : C -> Prop) (f : A -> B -> C) (xs : list A) (ys : list B) :
  Forall PA xs -> Forall PB ys ->
  (forall x y, PA x -> PB y -> P (f x y)) ->
  Forall P (map2 f xs ys).
Proof.
  intros Hxs. revert ys. induction Hxs as [|x xs Hx _ IH];
    intros ys Hys Hf; simpl; [constructor|].
  destruct Hys as [|y ys Hy Hys]; constructor; auto.
Qed.

Lemma count_true_zero (mask : list bool) (i : nat) :
  count_true mask = 0%nat -> nth i mask false = false.
Proof.
  unfold count_true. revert i.
  induction mask as [|[|] mask IH]; intros [|i] H; simpl in *;
    try discriminate; auto.
Qed.

Lemma Rdiv_unit (a d : R) : 0 <= a <= d -> 0 < d -> 0 <= a / d <= 1.
Proof.
  intros [Ha Had] Hd.
  assert (Hi : 0 < / d) by now apply Rinv_0_lt_compat.
  assert (H1 : d * / d = 1) by (apply Rinv_r; lra).
  unfold Rdiv. split; [nra|].
  rewrite <- H1. apply Rmult_le_compat_r; lra.
Qed.

Section BequestRanks.

Variable n_people : nat.
Variable rs : RandomSource.

Lemma parent_wealth_finite :
  Forall (fun x => is_finite x = true) (parent_wealth n_people rs).
Proof.
  unfold parent_wealth. apply Forall_forall. intros x Hx.
  apply in_map_iff in Hx. destruct Hx as (i & <- & _). reflexivity.
Qed.

Lemma bequest_shares_finite :
  Forall (fun x => is_finite x = true) (bequest_shares n_people rs).
Proof.
  unfold bequest_shares. apply Forall_forall. intros x Hx.
  apply in_map_iff in Hx. destruct Hx as (i & <- & _). reflexivity.
Qed.

(** Every bequest is a finite number. *)
Lemma bequests_finite :
  Forall (fun x => is_finite x = true) (bequests n_people rs).
Proof.
  unfold bequests.
  apply Forall_map2_in
    with (PA := fun _ => True) (PB := fun x => is_finite x = true).
  - apply Forall_forall. trivial.
  - apply Forall_map2_in
      with (PA := fun x => is_finite x = true)
           (PB := fun x => is_finite x = true).
    + apply parent_wealth_finite.
    + apply bequest_shares_finite.
    + intros [a| | |] [b| | |]; simpl; intros; try discriminate; reflexivity.
  - intros [|] y _ Hy; simpl; auto.
Qed.

Lemma length_positive_bequest_mask :
  length (positive_bequest_mask n_people rs) = n_people.
Proof.
  unfold positive_bequest_mask. now rewrite length_map, length_bequests.
Qed.

Lemma nth_positive_bequest_mask (i : nat) :
  (i < n_people)%nat ->
  nth i (positive_bequest_mask n_people rs) false
  = fgtb (nth i (bequests n_people rs) (Fin 0)) (Fin 0).
Proof.
  intros Hi. unfold positive_bequest_mask.
  rewrite nth_indep with (d' := fgtb (Fin 0) (Fin 0))
    by (now rewrite length_map, length_bequests).
  now rewrite (map_nth (fun b => fgtb b (Fin 0))).
Qed.

(** The number of positive bequests is the size of the ranked array. *)
Lemma n_positive_length :
  n_positive n_people rs
  = length (compress (positive_bequest_mask n_people rs)
                     (bequests n_people rs)).
Proof.
  unfold n_positive. symmetry. apply length_compress.
  now rewrite length_positive_bequest_mask, length_bequests.
Qed.

(** The masked assignment receives one value per selected position. *)
Lemma positive_ranks_shape :
  length (positive_ranks n_people rs)
  = count_true (positive_bequest_mask n_people rs).
Proof.
  unfold positive_ranks.
  rewrite length_map, length_rankdata. apply length_compress.
  now rewrite length_positive_bequest_mask, length_bequests.
Qed.

Lemma length_bequest_ranks : length (bequest_ranks n_people rs) = n_people.
Proof.
  unfold bequest_ranks. destruct (0 <? n_positive n_people rs)%nat.
  - now rewrite length_assign_mask, length_zeros.
  - apply length_zeros.
Qed.

(** Entry [i] of [bequest_ranks]: 0.4 + 0.6 times the normalized average
    rank among the positive bequests when bequest [i] is positive, and 0
    otherwise. *)
Lemma nth_bequest_ranks (i : nat) :
  (i < n_people)%nat ->
  let b := nth i (bequests n_people rs) (Fin 0) in
  let positive :=
    compress (positive_bequest_mask n_people rs) (bequests n_people rs) in
  nth i (bequest_ranks n_people rs) (Fin 0)
  = if fgtb b (Fin 0)
    then Fin (4 / 10
              + 6 / 10 * (average_rank positive b / INR (length positive)))
    else Fin 0.
Proof.
  intros Hi. cbv zeta. unfold bequest_ranks.
  rewrite <- nth_positive_bequest_mask by assumption.
  destruct (0 <? n_positive n_people rs)%nat eqn:Hpos.
  - apply Nat.ltb_lt in Hpos.
    unfold positive_ranks, rankdata.
    rewrite existsb_is_nan_finite
      by (apply Forall_compress, bequests_finite).
    rewrite !map_map.
    rewrite nth_assign_mask
      by (rewrite ?length_zeros, ?length_bequests,
           ?length_positive_bequest_mask; auto).
    rewrite nth_zeros.
    destruct (nth i (positive_bequest_mask n_people rs) false);
      [|reflexivity].
    rewrite <- n_positive_length. simpl.
    rewrite Reqb_false; [reflexivity|].
    apply not_0_INR. lia.
  - apply Nat.ltb_ge in Hpos.
    rewrite count_true_zero by (unfold n_positive in Hpos; lia).
    apply nth_zeros.
Qed.

(** The normalized rank of a positive bequest lies in (0, 1]. *)
Lemma normalized_rank_bounds (i : nat) :
  (i < n_people)%nat ->
  let b := nth i (bequests n_people rs) (Fin 0) in
  let positive :=
    compress (positive_bequest_mask n_people rs) (bequests n_people rs) in
  fgtb b (Fin 0) = true ->
  0 < average_rank positive b / INR (length positive) <= 1.
Proof.
  intros Hi b positive Hb.
  assert (Hin : In b positive).
  { apply In_compress; [now rewrite length_bequests|].
    now rewrite nth_positive_bequest_mask. }
  assert (Hnn : is_nan b = false) by (destruct b; auto; discriminate).
  pose proof (average_rank_bounds _ _ Hin Hnn) as Hr.
  assert (Hlen : 0 < INR (length positive)) by lra.
  split.
  - apply Rdiv_lt_0_compat; lra.
  - apply Rdiv_unit; lra.
Qed.

(** Every bequest rank lies in [0, 1]. *)
Lemma bequest_ranks_in_unit_interval :
  Forall (fun x => in_unit_interval x = true) (bequest_ranks n_people rs).
Proof.
  apply Forall_nth. intros i d Hi. rewrite length_bequest_ranks in Hi.
  rewrite nth_indep with (d' := Fin 0) by now rewrite length_bequest_ranks.
  rewrite nth_bequest_ranks by assumption.
  unfold in_unit_interval. apply andb_true_iff.
  destruct (fgtb (nth i (bequests n_people rs) (Fin 0)) (Fin 0)) eqn:Hb.
  - pose proof (normalized_rank_bounds i Hi Hb) as Hr. cbv zeta in Hr.
    rewrite !fleb_Fin. lra.
  - rewrite !fleb_Fin. lra.
Qed.

End BequestRanks.

(** [rankdata] on the example of its documentation: ties share the
    average of their ranks. *)
Example rankdata_with_ties :
  rankdata [Fin 0; Fin 2; Fin 3; Fin 2]
  = [Fin 1; Fin (5 / 2); Fin 4; Fin (5 / 2)].
Proof.
  unfold rankdata, average_rank, count_lt, count_eq.
  cbn [existsb is_nan orb map filter fltb feqb].
  decide_reals. cbn [length INR].
  repeat (f_equal; try lra).
Qed.

(** Two children whose parents hold 1,000,000 and 2,000,000: both parent
    ranks (0.5 and 1) reach the threshold, the bequests are 500,000 and
    1,000,000, and the bequest ranks are 0.4 + 0.6 * 0.5 and
    0.4 + 0.6 * 1. *)
Example bequest_ranks_of_two :
  bequests 2 distinct_draws = [Fin 500000; Fin 1000000]
  /\ bequest_ranks 2 distinct_draws = [Fin (7 / 10); Fin 1].
Proof.
  assert (Hpw : parent_wealth 2 distinct_draws
                = [Fin 1000000; Fin 2000000]).
  { unfold parent_wealth, WEALTH_SCALE, BASE_INCOME.
    cbn [seq map pareto_rvs distinct_draws fmul INR].
    repeat (f_equal; try lra). }
  assert (Hpr : parent_ranks 2 distinct_draws = [Fin (1 / 2); Fin 1]).
  { unfold parent_ranks. rewrite Hpw.
    unfold rankdata, average_rank, count_lt, count_eq.
    cbn [existsb is_nan orb map filter fltb feqb].
    decide_reals. cbn [length INR map fdiv]. decide_reals.
    repeat (f_equal; try lra). }
  assert (Hb : bequests 2 distinct_draws = [Fin 500000; Fin 1000000]).
  { unfold bequests, will_get_bequest, bequest_shares, NO_BEQUEST_PROB.
    rewrite Hpr, Hpw.
    cbn [seq map map2 random distinct_draws fmul].
    unfold fgeb, fleb, where_. cbn [fltb feqb].
    decide_reals. cbn [orb]. repeat (f_equal; try lra). }
  split; [exact Hb|].
  assert (Hm : positive_bequest_mask 2 distinct_draws = [true; true]).
  { unfold positive_bequest_mask. rewrite Hb. unfold fgtb.
    cbn [map fltb]. now decide_reals. }
  assert (Hn : n_positive 2 distinct_draws = 2%nat)
    by (unfold n_positive; now rewrite Hm).
  assert (Hr : positive_ranks 2 distinct_draws = [Fin (1 / 2); Fin 1]).
  { unfold positive_ranks. rewrite Hn, Hm, Hb. cbn [compress].
    unfold rankdata, average_rank, count_lt, count_eq.
    cbn [existsb is_nan orb map filter fltb feqb].
    decide_reals. cbn [length INR map fdiv]. decide_reals.
    repeat (f_equal; try lra). }
  unfold bequest_ranks. rewrite Hn, Hm, Hr.
  cbn [Nat.ltb Nat.leb map fmul fadd zeros repeat assign_mask].
  repeat (f_equal; try lra).
Qed.

(** C6. For every individual [i] of a run: if its bequest is positive, its
    bequest rank is [0.4 + 0.6 * r] where [r], its average rank among the
    positive bequests divided by their number, lies in (0, 1], so the rank
    lies in [0.4, 1]; if its bequest is zero, its rank is exactly 0.  When
    no bequest is positive the whole array is zero, and nothing is raised
    or divided. *)
Theorem bequest_ranks_rescaled (n_people : nat) (rs : RandomSource) (i : nat) :
  (i < n_people)%nat ->
  let b := nth i (bequests n_people rs) (Fin 0) in
  let positive :=
    compress (positive_bequest_mask n_people rs) (bequests n_people rs) in
  let rank := nth i (bequest_ranks n_people rs) (Fin 0) in
  (fgtb b (Fin 0) = true ->
   exists r,
     r = average_rank positive b / INR (length positive)
     /\ 0 < r <= 1
     /\ rank = Fin (4 / 10 + 6 / 10 * r)
     /\ 4 / 10 <= 4 / 10 + 6 / 10 * r <= 1)
  /\ (b = Fin 0 -> rank = Fin 0)
  /\ (n_positive n_people rs = 0%nat ->
      bequest_ranks n_people rs = zeros n_people).
Proof.
  intros Hi. cbv zeta.
  pose proof (nth_bequest_ranks n_people rs i Hi) as Hnth. cbv zeta in Hnth.
  split; [|split].
  - intros Hb. rewrite Hb in Hnth.
    pose proof (normalized_rank_bounds n_people rs i Hi Hb) as Hr.
    cbv zeta in Hr.
    eexists. split; [reflexivity|].
    repeat split; try assumption; lra.
  - intros Hb. rewrite Hb in Hnth. rewrite Hnth.
    unfold fgtb. simpl. now rewrite Rltb_false by lra.
  - intros Hz. unfold bequest_ranks. now rewrite Hz.
Qed.

Lemma bequest_ranks_rescaled_witness :
  let b := nth 0 (bequests 2 median_draws) (Fin 0) in
  let positive :=
    compress (positive_bequest_mask 2 median_draws) (bequests 2 median_draws) in
  let rank := nth 0 (bequest_ranks 2 median_draws) (Fin 0) in
  (fgtb b (Fin 0) = true ->
   exists r,
     r = average_rank positive b / INR (length positive)
     /\ 0 < r <= 1
     /\ rank = Fin (4 / 10 + 6 / 10 * r)
     /\ 4 / 10 <= 4 / 10 + 6 / 10 * r <= 1)
  /\ (b = Fin 0 -> rank = Fin 0)
  /\ (n_positive 2 median_draws = 0%nat ->
      bequest_ranks 2 median_draws = zeros 2).
Proof.
  apply (bequest_ranks_rescaled 2 median_draws 0). lia.
Defined.

(* ================================================================== *)
(** ** Wealth ranks *)

Lemma length_wealth_ranks (n_people : nat) (children : list Person) :
  length (wealth_ranks n_people children) = length children.
Proof.
  unfold wealth_ranks, final_wealth.
  now rewrite length_map, length_rankdata, length_map.
Qed.

(** With at least two people and no NaN among the final wealths, every
    wealth rank is [(rank - 1) / (n - 1)] for a rank between 1 and n. *)
Lemma wealth_ranks_in_unit_interval (n_people : nat) (children : list Person) :
  (2 <= n_people)%nat ->
  length children = n_people ->
  Forall (fun c => is_nan (last (wealth_history c) NaN) = false) children ->
  Forall (fun x => in_unit_interval x = true) (wealth_ranks n_people children).
Proof.
  intros Hn Hlen Hnan.
  assert (Hfw : Forall (fun x => is_nan x = false) (final_wealth children)).
  { unfold final_wealth. apply Forall_forall. intros x Hx.
    apply in_map_iff in Hx. destruct Hx as (c & <- & Hc).
    rewrite Forall_forall in Hnan. now apply Hnan. }
  unfold wealth_ranks, rankdata.
  rewrite existsb_is_nan_false by assumption.
  rewrite map_map. apply Forall_forall. intros x Hx.
  apply in_map_iff in Hx. destruct Hx as (w & <- & Hw).
  rewrite Forall_forall in Hfw.
  pose proof (average_rank_bounds _ _ Hw (Hfw _ Hw)) as Hr.
  assert (Hl : length (final_wealth children) = n_people)
    by (unfold final_wealth; now rewrite length_map).
  rewrite Hl in Hr.
  assert (Hd : IZR (Z.of_nat n_people - 1) = INR n_people - 1)
    by (now rewrite minus_IZR, <- INR_IZR_INZ).
  assert (H2 : 2 <= INR n_people) by (apply le_INR in Hn; simpl in Hn; lra).
  simpl. rewrite Reqb_false by lra.
  unfold in_unit_interval. apply andb_true_iff.
  rewrite !fleb_Fin, Hd. apply Rdiv_unit; lra.
Qed.

(** With a single person the only wealth rank is [0 / 0]. *)
Lemma wealth_ranks_single (c : Person) : wealth_ranks 1 [c] = [NaN].
Proof.
  unfold wealth_ranks, final_wealth. simpl map at 2.
  generalize (last (wealth_history c) NaN). intros w.
  assert (Hz : signed_inf (INR 0 + (INR 1 + 1) / 2 + - (1)) = NaN).
  { unfold signed_inf. simpl. now rewrite !Rltb_false by lra. }
  unfold rankdata, average_rank, count_lt, count_eq.
  destruct w as [w| | |]; simpl existsb; cbn [map filter fltb feqb];
    try reflexivity.
  - rewrite (Rltb_false w w), (Reqb_true w w) by lra.
    cbn [length fsub fneg fadd fdiv]. rewrite Reqb_true by (simpl; lra).
    now rewrite Hz.
  - cbn [length fsub fneg fadd fdiv]. rewrite Reqb_true by (simpl; lra).
    now rewrite Hz.
  - cbn [length fsub fneg fadd fdiv]. rewrite Reqb_true by (simpl; lra).
    now rewrite Hz.
Qed.

(* ================================================================== *)
(** ** Runs that stay finite *)

Lemma is_finite_inv (x : float64) :
  is_finite x = true -> exists a, x = Fin a.
Proof. destruct x; try discriminate. eauto. Qed.

Lemma is_finite_fadd (x y : float64) :
  is_finite x = true -> is_finite y = true -> is_finite (fadd x y) = true.
Proof. destruct x, y; simpl; auto. Qed.

Lemma is_finite_fsub (x y : float64) :
  is_finite x = true -> is_finite y = true -> is_finite (fsub x y) = true.
Proof. destruct x, y; simpl; auto. Qed.

Lemma is_finite_fmul (x y : float64) :
  is_finite x = true -> is_finite y = true -> is_finite (fmul x y) = true.
Proof. destruct x, y; simpl; auto; discriminate. Qed.

Lemma is_finite_minimum (x y : float64) :
  is_finite x = true -> is_finite y = true ->
  is_finite (minimum x y) = true.
Proof.
  destruct x as [a| | |], y as [b| | |]; simpl; auto.
  destruct (Rltb b a); auto.
Qed.

Lemma is_int_one : is_int (0 + 1) = true.
Proof.
  unfold is_int. apply Reqb_true.
  replace (0 + 1) with (INR 1) by (simpl; lra).
  rewrite Int_part_INR. reflexivity.
Qed.

(** With exponent 1 the power of a finite number is finite. *)
Lemma power_one_finite (s : R) :
  is_finite (power (Fin s) (Fin (0 + 1))) = true.
Proof.
  unfold power. simpl feqb. rewrite (Reqb_false (0 + 1) 0) by lra.
  destruct (Reqb s 1); [reflexivity|].
  destruct (Rltb 0 s); [reflexivity|].
  destruct (Reqb s 0).
  - rewrite Rltb_false by lra. reflexivity.
  - rewrite is_int_one. reflexivity.
Qed.

(** With elasticity 0 the consumption of a finite income is finite. *)
Lemma consumption_finite_constant_mpc (x b ref : R) :
  ref <> 0 ->
  is_finite (calculate_consumption (Fin x) (Fin b) (Fin ref) (Fin 0)) = true.
Proof.
  intros Href. unfold calculate_consumption.
  simpl fadd. simpl fdiv at 2. rewrite (Reqb_false ref 0) by assumption.
  destruct (is_finite_inv _ (power_one_finite (x / ref))) as [p ->].
  simpl. now rewrite Reqb_false by lra.
Qed.

Lemma simulate_year_finite (p : Person) (years_worked : nat)
    (lognormal_draw normal_draw : R) :
  is_finite (wealth p) = true ->
  is_finite (base_labor_income p) = true ->
  is_finite
    (wealth (simulate_year p years_worked (Some constant_mpc_params)
                           lognormal_draw normal_draw)) = true.
Proof.
  intros Hw Hb.
  assert (Hl : is_finite
                 (get_labor_income p years_worked lognormal_draw) = true).
  { unfold get_labor_income. destruct (RETIREMENT_AGE <=? age p)%Z;
      repeat apply is_finite_fmul; auto. }
  assert (Hc : is_finite (get_capital_income p normal_draw) = true).
  { unfold get_capital_income. apply is_finite_fmul; auto. }
  pose proof (is_finite_fadd _ _ Hl Hc) as Ht.
  unfold simulate_year, year_flows.
  cbn [wealth total_income consumption base_mpc reference_income elasticity
       constant_mpc_params].
  apply is_finite_fadd; [assumption|].
  apply is_finite_fsub; [assumption|].
  apply is_finite_minimum.
  - destruct (is_finite_inv _ Ht) as [t ->].
    apply consumption_finite_constant_mpc.
    unfold MPC_REFERENCE_INCOME. lra.
  - apply is_finite_fadd; [assumption|].
    unfold where_. destruct (fgtb (wealth p) (Fin 0)); [|reflexivity].
    apply is_finite_fmul; auto.
Qed.

Section FiniteRun.

Variable n_people : nat.
Variable rs : RandomSource.

Lemma parent_ranks_finite :
  Forall (fun x => is_finite x = true) (parent_ranks n_people rs).
Proof.
  unfold parent_ranks, rankdata.
  rewrite existsb_is_nan_finite by apply parent_wealth_finite.
  rewrite map_map. apply Forall_forall. intros x Hx.
  apply in_map_iff in Hx. destruct Hx as (w & <- & Hw).
  simpl. rewrite Reqb_false; [reflexivity|].
  apply not_0_INR. destruct (parent_wealth n_people rs); [contradiction|].
  discriminate.
Qed.

Lemma nth_bequests_finite (i : nat) :
  is_finite (nth i (bequests n_people rs) (Fin 0)) = true.
Proof.
  destruct (nth_in_or_default i (bequests n_people rs) (Fin 0)) as [H | ->];
    [|reflexivity].
  pose proof (bequests_finite n_people rs) as Hf.
  rewrite Forall_forall in Hf. now apply Hf.
Qed.

(** With elasticity 0, at every year boundary each child's wealth is
    finite and is the last entry of its wealth history. *)
Lemma children_finite (k : nat) (c : Person) :
  In c (children_after n_people (Some constant_mpc_params) rs k) ->
  is_finite (wealth c) = true
  /\ last (wealth_history c) NaN = wealth c
  /\ is_finite (base_labor_income c) = true.
Proof.
  revert k c. apply children_after_ind.
  - intros c Hc. unfold initial_children in Hc. apply in_map_iff in Hc.
    destruct Hc as (r & <- & Hr).
    pose proof parent_ranks_finite as Hf. rewrite Forall_forall in Hf.
    destruct (is_finite_inv _ (Hf _ Hr)) as [a ->]. simpl. auto.
  - intros k i c (Hw & _ & Hb). unfold child_year.
    destruct (age c =? nth i (death_ages n_people rs) 0)%Z.
    + repeat split.
      * apply simulate_year_finite; [|exact Hb].
        simpl. apply is_finite_fadd; [exact Hw | apply nth_bequests_finite].
      * simpl. apply last_last.
      * exact Hb.
    + repeat split.
      * now apply simulate_year_finite.
      * simpl. apply last_last.
      * exact Hb.
Qed.

Lemma final_wealth_not_nan (k : nat) :
  Forall (fun c => is_nan (last (wealth_history c) NaN) = false)
         (children_after n_people (Some constant_mpc_params) rs k).
Proof.
  apply Forall_forall. intros c Hc.
  destruct (children_finite k c Hc) as (Hw & -> & _).
  destruct (wealth c); auto; discriminate.
Qed.

End FiniteRun.

(* ================================================================== *)
(** ** Settled properties: the shapes and ranges of the results *)

(** C5 (as the code behaves). For every population size [n_people],
    [run_simulation] returns [n_people] persons and two rank arrays of that
    length; every bequest rank lies in [0, 1]; and when [n_people] is at
    least 2 and no final wealth is NaN, every wealth rank lies in [0, 1]. *)
Theorem run_simulation_shapes
    (n_people : nat) (mpc_params : option MpcParams) (rs : RandomSource) :
  let '(children, bequest_ranks, wealth_ranks) :=
    run_simulation n_people mpc_params rs in
  length children = n_people
  /\ length bequest_ranks = n_people
  /\ length wealth_ranks = n_people
  /\ Forall (fun x => in_unit_interval x = true) bequest_ranks
  /\ ((2 <= n_people)%nat ->
      Forall (fun c => is_nan (last (wealth_history c) NaN) = false)
             children ->
      Forall (fun x => in_unit_interval x = true) wealth_ranks).
Proof.
  unfold run_simulation.
  pose proof (length_children_after n_people mpc_params rs n_years) as Hlen.
  repeat split.
  - exact Hlen.
  - apply length_bequest_ranks.
  - now rewrite length_wealth_ranks.
  - apply bequest_ranks_in_unit_interval.
  - intros Hn Hnan. now apply wealth_ranks_in_unit_interval.
Qed.

Lemma run_simulation_shapes_witness :
  Forall (fun x => in_unit_interval x = true)
         (wealth_ranks 2
            (children_after 2 (Some constant_mpc_params) median_draws 60)).
Proof.
  pose proof (run_simulation_shapes 2 (Some constant_mpc_params) median_draws)
    as H.
  unfold run_simulation in H.
  destruct H as (_ & _ & _ & _ & H).
  apply H; [lia | apply final_wealth_not_nan].
Defined.

(** C5, refuted as stated: with a population of one the wealth rank is
    [(1 - 1) / (1 - 1)], NaN, which is not in [0, 1]. *)
Lemma single_person_wealth_rank_nan :
  let '(_, _, wealth_ranks) := run_simulation 1 None median_draws in
  wealth_ranks = [NaN]
  /\ ~ Forall (fun x => in_unit_interval x = true) wealth_ranks.
Proof.
  unfold run_simulation.
  pose proof (length_children_after 1 None median_draws n_years) as Hlen.
  destruct (children_after 1 None median_draws n_years) as [|c [|c' l]];
    try discriminate.
  rewrite wealth_ranks_single. split; [reflexivity|].
  intros H. inversion H. discriminate.
Qed.

(* ================================================================== *)
(** ** Rank statistics: which bin selects a rank *)

Section Bins.

Variable n_bins : nat.

Lemma nth_bins (i : nat) :
  (i <= n_bins)%nat ->
  nth i (bins n_bins) NaN = Fin (0 + INR i * ((1 - 0) / INR n_bins)).
Proof.
  intros Hi. unfold bins, linspace. rewrite Nat.add_sub.
  rewrite nth_indep
    with (d' := (fun i => Fin (0 + INR i * ((1 - 0) / INR n_bins))) 0%nat)
    by (rewrite length_map, length_seq; lia).
  rewrite (map_nth (fun i => Fin (0 + INR i * ((1 - 0) / INR n_bins)))).
  rewrite seq_nth by lia. reflexivity.
Qed.

(** Bin [i] selects the finite rank [r] exactly when
    [i / n_bins <= r < (i + 1) / n_bins]. *)
Lemma bin_selects_iff (i : nat) (r : R) :
  (i < n_bins)%nat ->
  nth 0 (bin_mask [Fin r] n_bins i) false = true
  <-> INR i / INR n_bins <= r < (INR i + 1) / INR n_bins.
Proof.
  intros Hi. unfold bin_mask. simpl nth at 1.
  rewrite !nth_bins by lia.
  rewrite andb_true_iff. unfold fgeb. rewrite fleb_Fin.
  simpl fltb. rewrite Rltb_spec, plus_INR. change (INR 1) with 1.
  unfold Rdiv. split; intros [H1 H2]; split; lra.
Qed.

Lemma bin_found (r : R) (m : nat) :
  (m <= n_bins)%nat -> 0 <= r -> r < INR m / INR n_bins ->
  exists i, (i < m)%nat /\ INR i / INR n_bins <= r < (INR i + 1) / INR n_bins.
Proof.
  intros Hm Hr. induction m as [|m IH]; intros Hlt.
  - simpl in Hlt. unfold Rdiv in Hlt. rewrite Rmult_0_l in Hlt. lra.
  - destruct (Rlt_dec r (INR m / INR n_bins)) as [Hlow | Hhigh].
    + destruct IH as (i & Hi & Hb); [lia | assumption |].
      exists i. split; [lia | assumption].
    + exists m. rewrite S_INR in Hlt. split; [lia | lra].
Qed.

(** Every rank in [0, 1) is selected by exactly one bin. *)
Lemma rank_below_one_in_one_bin (r : R) :
  (0 < n_bins)%nat -> 0 <= r < 1 ->
  length (bins_selecting n_bins (Fin r)) = 1%nat.
Proof.
  intros Hn [Hr0 Hr1].
  assert (Hpos : 0 < INR n_bins) by (apply lt_0_INR; lia).
  assert (Hinv : 0 < / INR n_bins) by now apply Rinv_0_lt_compat.
  apply Nat.le_antisymm.
  - unfold bins_selecting. apply filter_at_most_one; [apply seq_NoDup|].
    intros i j Hi Hj Hsi Hsj.
    apply in_seq in Hi, Hj.
    apply bin_selects_iff in Hsi, Hsj; try lia.
    unfold Rdiv in Hsi, Hsj.
    assert (Hij : INR i < INR j + 1) by nra.
    assert (Hji : INR j < INR i + 1) by nra.
    rewrite <- S_INR in Hij, Hji.
    apply INR_lt in Hij, Hji. lia.
  - destruct (bin_found r n_bins) as (i & Hi & Hb); [lia | lra | |].
    + unfold Rdiv. rewrite Rinv_r; lra.
    + unfold bins_selecting.
      apply filter_In_length with (x := i).
      * apply in_seq. lia.
      * now apply bin_selects_iff.
Qed.

End Bins.

(** C2, evaluated where it fails.  Whatever the number of bins, no bin of
    [calculate_rank_statistics] selects a bequest rank equal to 1.0: the
    last bin is right-open like the others, so the individual with the
    top rank is counted in no bin. *)
Theorem top_rank_in_no_bin (n_bins : nat) :
  bins_selecting n_bins (Fin 1) = [].
Proof.
  unfold bins_selecting.
  destruct (filter (fun i => nth 0 (bin_mask [Fin 1] n_bins i) false)
                   (seq 0 n_bins)) as [|i l] eqn:E; [reflexivity|].
  assert (Hi : In i (i :: l)) by now left.
  rewrite <- E in Hi. apply filter_In in Hi. destruct Hi as [Hi Hsel].
  apply in_seq in Hi.
  apply bin_selects_iff in Hsel; [|lia].
  assert (Hpos : 0 < INR n_bins) by (apply lt_0_INR; lia).
  assert (Hle : INR i + 1 <= INR n_bins)
    by (rewrite <- S_INR; apply le_INR; lia).
  assert (Hinv : 0 < / INR n_bins) by now apply Rinv_0_lt_compat.
  assert (H1 : INR n_bins * / INR n_bins = 1) by (apply Rinv_r; lra).
  unfold Rdiv in Hsel. nra.
Qed.

(* ================================================================== *)
(** ** Further properties of the MPC and consumption rules *)

Lemma maximum_Fin (a b : R) : maximum (Fin a) (Fin b) = Fin (Rmax a b).
Proof.
  simpl. unfold Rltb, Rmax.
  destruct (Rlt_dec a b), (Rle_dec a b); try reflexivity; f_equal; lra.
Qed.

(** For a positive reference income, the MPC at a finite income is the
    real power of the floored scaled income. *)
Lemma mpc_closed_form (x b ref e : R) :
  0 < ref ->
  calculate_mpc (Fin x) (Fin b) (Fin ref) (Fin e)
  = Fin (b * Rpower (Rmax (x / ref) (1 / 1000000)) e).
Proof.
  intros Href. unfold calculate_mpc. simpl fdiv.
  rewrite (Reqb_false ref 0) by lra. rewrite maximum_Fin.
  rewrite power_pos; [reflexivity|].
  pose proof (Rmax_r (x / ref) (1 / 1000000)). lra.
Qed.

(** X1. At the reference income the MPC is exactly the base MPC, for
    every elasticity (infinite and NaN included) and every non-zero
    reference income. *)
Theorem mpc_at_reference (b ref : R) (e : float64) :
  ref <> 0 -> calculate_mpc (Fin ref) (Fin b) (Fin ref) e = Fin b.
Proof.
  intros Href. unfold calculate_mpc. simpl fdiv.
  rewrite (Reqb_false ref 0) by assumption.
  assert (H1 : ref / ref = 1) by (field; assumption).
  rewrite H1. simpl maximum. rewrite Rltb_false by lra.
  unfold power. destruct (feqb e (Fin 0)).
  - simpl. f_equal. lra.
  - simpl feqb. rewrite Reqb_true by reflexivity. simpl. f_equal. lra.
Qed.

Lemma mpc_at_reference_witness :
  calculate_mpc (Fin 35000) (Fin MPC_BASE) (Fin 35000) NaN = Fin MPC_BASE.
Proof.
  apply mpc_at_reference. lra.
Defined.

(** X2. The floor of [calculate_mpc]: every income at or below one
    millionth of the (positive) reference income, zero and negative
    incomes included, has the same MPC, [base_mpc * (1e-6) ^ elasticity]. *)
Theorem mpc_constant_below_floor (x b ref e : R) :
  0 < ref -> x <= ref / 1000000 ->
  calculate_mpc (Fin x) (Fin b) (Fin ref) (Fin e)
  = Fin (b * Rpower (1 / 1000000) e).
Proof.
  intros Href Hx. rewrite mpc_closed_form by assumption.
  rewrite Rmax_right; [reflexivity|].
  unfold Rdiv in *.
  apply Rmult_le_reg_r with (r := ref); [assumption|].
  rewrite Rmult_assoc, Rinv_l by lra. lra.
Qed.

Lemma mpc_constant_below_floor_witness :
  calculate_mpc (Fin (-1000)) (Fin MPC_BASE) (Fin 35000) (Fin MPC_ELASTICITY)
  = Fin (MPC_BASE * Rpower (1 / 1000000) MPC_ELASTICITY).
Proof.
  apply mpc_constant_below_floor; lra.
Defined.

(** X3. For a positive base MPC and reference income, the MPC of every
    finite income is a number that is not negative: never NaN, never below
    zero. *)
Theorem mpc_never_negative (x b ref e : R) :
  0 < b -> 0 < ref ->
  fleb (Fin 0) (calculate_mpc (Fin x) (Fin b) (Fin ref) (Fin e)) = true.
Proof.
  intros Hb Href. rewrite mpc_closed_form by assumption.
  apply fleb_Fin. left. apply Rmult_lt_0_compat; [assumption|].
  apply exp_pos.
Qed.

Lemma mpc_never_negative_witness :
  fleb (Fin 0)
       (calculate_mpc (Fin (-1000)) (Fin MPC_BASE) (Fin 35000)
                      (Fin MPC_ELASTICITY)) = true.
Proof.
  apply mpc_never_negative; unfold MPC_BASE; lra.
Defined.








(* ================================================================== *)
(** ** Further properties of the life cycle *)

(** The wealth update of [simulate_year], for any total income and any
    desired consumption: consumption is capped at the income plus a tenth
    of a positive wealth, so a wealth that is not negative stays so. *)
Lemma wealth_update_nonneg (w t raw : float64) :
  let borrowing :=
    where_ (fgtb w (Fin 0)) (fmul w (Fin BORROWING_LIMIT_WEALTH_SHARE))
           (Fin 0) in
  let w' := fadd w (fsub t (minimum raw (fadd t borrowing))) in
  fltb w (Fin 0) = false -> fltb w' (Fin 0) = false.
Proof.
  unfold BORROWING_LIMIT_WEALTH_SHARE, where_, fgtb.
  destruct w as [a| | |]; cbn [fltb fmul]; unfold signed_inf;
    rewrite ?(Rltb_true 0 (1 / 10)) by lra;
    destruct t as [b| | |], raw as [c| | |]; simpl;
    try (auto; fail);
    repeat match goal with
           | |- context [Rltb ?x ?y] =>
               let E := fresh "E" in destruct (Rltb x y) eqn:E; simpl
           end;
    try (auto; fail);
    intros; rdec.
Qed.

Lemma simulate_year_nonneg
    (self : Person) (years_worked : nat) (mpc_params : option MpcParams)
    (lognormal_draw normal_draw : R) :
  fltb (wealth self) (Fin 0) = false ->
  fltb (wealth (simulate_year self years_worked mpc_params
                              lognormal_draw normal_draw))
       (Fin 0) = false.
Proof.
  unfold simulate_year, year_flows.
  cbn [wealth total_income consumption borrowing_available].
  apply wealth_update_nonneg.
Qed.



Section RunFacts2.

Variable n_people : nat.
Variable mpc_params : option MpcParams.
Variable rs : RandomSource.

Lemma nth_simulate_all (year i : nat) (children : list Person) (d : Person) :
  (i < length children)%nat ->
  nth i (simulate_all n_people mpc_params rs year children) d
  = child_year n_people mpc_params rs year i (nth i children d).
Proof.
  intros Hi. unfold simulate_all.
  rewrite nth_indep
    with (d' := (fun ic => child_year n_people mpc_params rs year
                             (fst ic) (snd ic)) (i, d))
    by (now rewrite length_map, length_enumerate).
  rewrite (map_nth (fun ic => child_year n_people mpc_params rs year
                                (fst ic) (snd ic))).
  unfold enumerate.
  rewrite combine_nth by (now rewrite length_seq).
  now rewrite seq_nth.
Qed.

Lemma nth_children_after_S (k i : nat) (d : Person) :
  (i < n_people)%nat ->
  nth i (children_after n_people mpc_params rs (S k)) d
  = child_year n_people mpc_params rs k i
      (nth i (children_after n_people mpc_params rs k) d).
Proof.
  intros Hi. rewrite children_after_S.
  apply nth_simulate_all. now rewrite length_children_after.
Qed.

Lemma nth_initial_children (i : nat) (d : Person) :
  (i < n_people)%nat ->
  nth i (initial_children n_people rs) d
  = Person_init CHILD_START_AGE (Fin 0)
      (Some (nth i (parent_ranks n_people rs) NaN)).
Proof.
  intros Hi. unfold initial_children.
  rewrite nth_indep
    with (d' := (fun r => Person_init CHILD_START_AGE (Fin 0) (Some r)) NaN)
    by (now rewrite length_map, length_parent_ranks).
  now rewrite (map_nth (fun r => Person_init CHILD_START_AGE (Fin 0) (Some r))).
Qed.

(** Induction over the years of a run for the child at a given index. *)
Lemma child_ind (P : nat -> nat -> Person -> Prop) (d : Person) :
  (forall i, (i < n_people)%nat ->
             P 0%nat i (nth i (initial_children n_people rs) d)) ->
  (forall k i c, (i < n_people)%nat -> P k i c ->
                 P (S k) i (child_year n_people mpc_params rs k i c)) ->
  forall k i, (i < n_people)%nat ->
              P k i (nth i (children_after n_people mpc_params rs k) d).
Proof.
  intros H0 HS. induction k as [|k IH]; intros i Hi.
  - now apply H0.
  - rewrite nth_children_after_S by assumption. apply HS; auto.
Qed.

Lemma nth_death_ages (i : nat) :
  (i < n_people)%nat -> nth i (death_ages n_people rs) 0%Z = randint rs i.
Proof.
  intros Hi. unfold death_ages.
  rewrite nth_indep with (d' := randint rs 0)
    by (now rewrite length_map, length_seq).
  rewrite map_nth. now rewrite seq_nth.
Qed.

End RunFacts2.

Lemma filter_singleton {A : Type} (f : A -> bool) (l : list A) (x : A) :
  NoDup l -> In x l -> f x = true ->
  (forall y, In y l -> f y = true -> y = x) ->
  filter f l = [x].
Proof.
  intros Hnd Hin Hfx Huniq.
  assert (Hlen : (length (filter f l) <= 1)%nat).
  { apply filter_at_most_one; [assumption|].
    intros a b Ha Hb Hfa Hfb.
    rewrite (Huniq a), (Huniq b); auto. }
  assert (Hx : In x (filter f l)) by (apply filter_In; auto).
  destruct (filter f l) as [|y [|z r]]; simpl in *; try lia; try contradiction.
  destruct Hx as [-> | []]. reflexivity.
Qed.

(** X10. When the death age drawn for individual [i] lies between
    [BEQUEST_AGE_MIN] and [BEQUEST_AGE_MAX], the bequest test succeeds in
    exactly one of the 60 years: the year [death_age - CHILD_START_AGE],
    between the 6th and the 36th year of the run. *)
Theorem bequest_added_exactly_once
    (n_people : nat) (mpc_params : option MpcParams) (rs : RandomSource)
    (i : nat) :
  (i < n_people)%nat ->
  (BEQUEST_AGE_MIN <= randint rs i <= BEQUEST_AGE_MAX)%Z ->
  bequest_years n_people mpc_params rs i 60
  = [Z.to_nat (randint rs i - CHILD_START_AGE)].
Proof.
  intros Hi Hd. unfold bequest_years.
  unfold BEQUEST_AGE_MIN, BEQUEST_AGE_MAX, CHILD_START_AGE in *.
  assert (Hage : forall y,
            age (nth i (children_after n_people mpc_params rs y)
                     (Person_init 0 NaN None)) = (25 + Z.of_nat y)%Z).
  { intros y.
    rewrite (age_children_after n_people mpc_params rs y)
      by (apply nth_In; now rewrite length_children_after).
    reflexivity. }
  apply filter_singleton.
  - apply seq_NoDup.
  - apply in_seq. lia.
  - rewrite Hage, nth_death_ages by assumption. apply Z.eqb_eq. lia.
  - intros y _ Hy. rewrite Hage, nth_death_ages in Hy by assumption.
    apply Z.eqb_eq in Hy. lia.
Qed.

Lemma bequest_added_exactly_once_witness :
  bequest_years 1 None median_draws 0 60 = [5%nat].
Proof.
  apply (bequest_added_exactly_once 1 None median_draws 0).
  - lia.
  - unfold BEQUEST_AGE_MIN, BEQUEST_AGE_MAX. simpl. lia.
Defined.

Section RunTrace.

Variable n_people : nat.
Variable mpc_params : option MpcParams.
Variable rs : RandomSource.

(** What one pass of the loop body does to a child: one entry is appended
    to each history, and the new wealth is the opening wealth (the bequest
    included, in the year it is paid) plus income minus consumption. *)
Lemma child_year_effect (year i : nat) (c : Person) :
  let c' := child_year n_people mpc_params rs year i c in
  let opening :=
    if (age c =? nth i (death_ages n_people rs) 0)%Z
    then fadd (wealth c) (nth i (bequests n_people rs) (Fin 0))
    else wealth c in
  exists labor capital cons,
    labor = get_labor_income c year (lognormal rs year i)
    /\ wealth c' = fadd opening (fsub (fadd labor capital) cons)
    /\ wealth_history c' = wealth_history c ++ [wealth c']
    /\ labor_income_history c' = labor_income_history c ++ [labor]
    /\ capital_income_history c' = capital_income_history c ++ [capital]
    /\ consumption_history c' = consumption_history c ++ [cons].
Proof.
  cbv zeta. unfold child_year.
  destruct (age c =? nth i (death_ages n_people rs) 0)%Z;
    eexists; eexists; eexists; repeat split.
Qed.

Lemma nth_snoc_lt {A : Type} (l : list A) (x d : A) (y : nat) :
  (y < length l)%nat -> nth y (l ++ [x]) d = nth y l d.
Proof. intros. now apply app_nth1. Qed.

Lemma nth_snoc_eq {A : Type} (l : list A) (x d : A) (k : nat) :
  length l = k -> nth k (l ++ [x]) d = x.
Proof.
  intros <-. rewrite app_nth2 by lia. now rewrite Nat.sub_diag.
Qed.

(** The state of child [i] after [k] years, and the content of its
    histories up to then. *)
Lemma child_trace (d : Person) (k i : nat) :
  (i < n_people)%nat ->
  let c := nth i (children_after n_people mpc_params rs k) d in
  let base :=
    fmul (Fin (IZR BASE_INCOME))
         (fadd (Fin 1)
               (fmul (Fin PARENT_WEALTH_EFFECT)
                     (nth i (parent_ranks n_people rs) NaN))) in
  age c = (CHILD_START_AGE + Z.of_nat k)%Z
  /\ base_labor_income c = base
  /\ length (wealth_history c) = S k
  /\ length (labor_income_history c) = k
  /\ length (capital_income_history c) = k
  /\ length (consumption_history c) = k
  /\ nth k (wealth_history c) NaN = wealth c
  /\ (forall y, (y < k)%nat ->
        nth y (labor_income_history c) NaN
        = if (Z.of_nat y <? RETIREMENT_AGE - CHILD_START_AGE)%Z
          then fmul (fmul base (Fin ((1 + INCOME_GROWTH_RATE) ^ y)))
                    (Fin (lognormal rs y i))
          else fmul base (Fin RETIREMENT_INCOME_RATIO))
  /\ (forall y, (y < k)%nat ->
        let opening :=
          if (CHILD_START_AGE + Z.of_nat y =? randint rs i)%Z
          then fadd (nth y (wealth_history c) NaN)
                    (nth i (bequests n_people rs) (Fin 0))
          else nth y (wealth_history c) NaN in
        nth (S y) (wealth_history c) NaN
        = fadd opening
               (fsub (fadd (nth y (labor_income_history c) NaN)
                           (nth y (capital_income_history c) NaN))
                     (nth y (consumption_history c) NaN))).
Proof.
  revert k i.
  apply (child_ind n_people mpc_params rs
           (fun k i c =>
              age c = (CHILD_START_AGE + Z.of_nat k)%Z
              /\ base_labor_income c
                 = fmul (Fin (IZR BASE_INCOME))
                        (fadd (Fin 1)
                              (fmul (Fin PARENT_WEALTH_EFFECT)
                                    (nth i (parent_ranks n_people rs) NaN)))
              /\ length (wealth_history c) = S k
              /\ length (labor_income_history c) = k
              /\ length (capital_income_history c) = k
              /\ length (consumption_history c) = k
              /\ nth k (wealth_history c) NaN = wealth c
              /\ (forall y, (y < k)%nat ->
                    nth y (labor_income_history c) NaN
                    = if (Z.of_nat y <? RETIREMENT_AGE - CHILD_START_AGE)%Z
                      then fmul (fmul (fmul (Fin (IZR BASE_INCOME))
                                        (fadd (Fin 1)
                                           (fmul (Fin PARENT_WEALTH_EFFECT)
                                              (nth i (parent_ranks n_people rs)
                                                   NaN))))
                                      (Fin ((1 + INCOME_GROWTH_RATE) ^ y)))
                                (Fin (lognormal rs y i))
                      else fmul (fmul (Fin (IZR BASE_INCOME))
                                   (fadd (Fin 1)
                                      (fmul (Fin PARENT_WEALTH_EFFECT)
                                         (nth i (parent_ranks n_people rs)
                                              NaN))))
                                (Fin RETIREMENT_INCOME_RATIO))
              /\ (forall y, (y < k)%nat ->
                    nth (S y) (wealth_history c) NaN
                    = fadd (if (CHILD_START_AGE + Z.of_nat y
                                =? randint rs i)%Z
                            then fadd (nth y (wealth_history c) NaN)
                                      (nth i (bequests n_people rs) (Fin 0))
                            else nth y (wealth_history c) NaN)
                           (fsub (fadd (nth y (labor_income_history c) NaN)
                                       (nth y (capital_income_history c) NaN))
                                 (nth y (consumption_history c) NaN))))
           d).
  - intros i Hi. rewrite nth_initial_children by assumption.
    simpl. repeat split; try lia; intros y Hy; lia.
  - intros k i c Hi (Hage & Hbase & Hw & Hl & Hc & Hs & Hlast & Hlab & Hled).
    destruct (child_year_effect k i c)
      as (labor & capital & cons & Elab & Ewealth & Ewh & Elh & Ech & Esh).
    destruct (base_labor_income_child_year n_people mpc_params rs k i c)
      as [Ebase _].
    rewrite age_child_year, Ebase, Ewh, Elh, Ech, Esh, !length_app.
    simpl length. rewrite nth_death_ages in Ewealth by assumption.
    repeat split; try lia; try assumption.
    + now apply nth_snoc_eq.
    + intros y Hy. destruct (Nat.eq_dec y k) as [-> | Hne].
      * rewrite nth_snoc_eq by assumption. rewrite Elab.
        unfold get_labor_income, RETIREMENT_AGE, CHILD_START_AGE in *.
        rewrite Hage, Hbase.
        destruct (65 <=? 25 + Z.of_nat k)%Z eqn:E1,
                 (Z.of_nat k <? 65 - 25)%Z eqn:E2;
          try reflexivity; exfalso;
          rewrite ?Z.leb_le, ?Z.leb_gt, ?Z.ltb_lt, ?Z.ltb_ge in *; lia.
      * rewrite nth_snoc_lt by lia. apply Hlab. lia.
    + intros y Hy. destruct (Nat.eq_dec y k) as [-> | Hne].
      * rewrite (nth_snoc_eq (wealth_history c)) by assumption.
        rewrite (nth_snoc_lt (wealth_history c)) by lia.
        rewrite !nth_snoc_eq by assumption.
        rewrite Hlast, <- Hage. exact Ewealth.
      * rewrite !nth_snoc_lt by lia. apply Hled. lia.
Qed.

End RunTrace.

(** C9. Across the 60 years of a run the bequest of individual [i] is added
    to the wealth at most once.  The age at the start of year [y] is
    [CHILD_START_AGE + y], one more each year, so the bequest test
    [child.age == death_ages[i]] succeeds in at most one year.  The loop
    body calls [add_wealth] with the bequest in the years in which the test
    succeeds and in no other: the child of the next year is [simulate_year]
    of the child with the bequest added in those years, and of the child
    itself in all others.  The recorded wealth shows the same: the entry
    after year [y] is the entry before it plus the incomes minus the
    consumption of the year, with the bequest added in the years of the
    test only. *)
Theorem bequest_added_at_most_once
    (n_people : nat) (mpc_params : option MpcParams) (rs : RandomSource)
    (i : nat) :
  (i < n_people)%nat ->
  let years := bequest_years n_people mpc_params rs i 60 in
  let child := fun y =>
    nth i (children_after n_people mpc_params rs y) (Person_init 0 NaN None) in
  let bequest := nth i (bequests n_people rs) (Fin 0) in
  (length years <= 1)%nat
  /\ (forall y, age (child y) = (CHILD_START_AGE + Z.of_nat y)%Z)
  /\ (forall y, (y < 60)%nat ->
        (In y years ->
         child (S y)
         = simulate_year (add_wealth (child y) bequest) y mpc_params
             (lognormal rs y i) (normal rs y i))
        /\ (~ In y years ->
            child (S y)
            = simulate_year (child y) y mpc_params
                (lognormal rs y i) (normal rs y i)))
  /\ (forall y, (y < 60)%nat ->
        let flow :=
          fsub (fadd (nth y (labor_income_history (child 60%nat)) NaN)
                     (nth y (capital_income_history (child 60%nat)) NaN))
               (nth y (consumption_history (child 60%nat)) NaN) in
        (In y years ->
         nth (S y) (wealth_history (child 60%nat)) NaN
         = fadd (fadd (nth y (wealth_history (child 60%nat)) NaN) bequest)
                flow)
        /\ (~ In y years ->
            nth (S y) (wealth_history (child 60%nat)) NaN
            = fadd (nth y (wealth_history (child 60%nat)) NaN) flow)).
Proof.
  intros Hi. cbv zeta.
  assert (Hage : forall y,
            age (nth i (children_after n_people mpc_params rs y)
                     (Person_init 0 NaN None))
            = (CHILD_START_AGE + Z.of_nat y)%Z).
  { intros y. apply (age_children_after n_people mpc_params rs y).
    apply nth_In. now rewrite length_children_after. }
  assert (Hin : forall y, (y < 60)%nat ->
            In y (bequest_years n_people mpc_params rs i 60)
            <-> (CHILD_START_AGE + Z.of_nat y =? randint rs i)%Z = true).
  { intros y Hy. unfold bequest_years. rewrite filter_In, in_seq.
    cbv beta zeta. rewrite Hage, nth_death_ages by assumption.
    split; [tauto|]. intros H. split; [lia|exact H]. }
  split; [|split; [exact Hage|split]].
  - unfold bequest_years.
    apply filter_at_most_one; [apply seq_NoDup|].
    intros y1 y2 _ _ H1 H2. cbv beta zeta in H1, H2.
    rewrite Hage in H1, H2. apply Z.eqb_eq in H1, H2. lia.
  - intros y Hy. rewrite nth_children_after_S by assumption.
    unfold child_year. rewrite Hage, nth_death_ages by assumption.
    destruct (CHILD_START_AGE + Z.of_nat y =? randint rs i)%Z eqn:E.
    + split; [reflexivity|]. intros Hn. exfalso. apply Hn.
      now apply Hin.
    + split; [|reflexivity]. intros H. apply Hin in H; [|assumption].
      congruence.
  - destruct (child_trace n_people mpc_params rs (Person_init 0 NaN None)
                60 i Hi)
      as (_ & _ & _ & _ & _ & _ & _ & _ & Hled).
    intros y Hy. specialize (Hled y Hy). cbv zeta in Hled.
    destruct (CHILD_START_AGE + Z.of_nat y =? randint rs i)%Z eqn:E.
    + split; [intros _; exact Hled|]. intros Hn. exfalso. apply Hn.
      now apply Hin.
    + split; [|intros _; exact Hled]. intros H. apply Hin in H; [|assumption].
      congruence.
Qed.

Lemma bequest_added_at_most_once_witness :
  let years := bequest_years 1 None median_draws 0 60 in
  let child := fun y =>
    nth 0 (children_after 1 None median_draws y) (Person_init 0 NaN None) in
  let bequest := nth 0 (bequests 1 median_draws) (Fin 0) in
  (length years <= 1)%nat
  /\ (forall y, age (child y) = (CHILD_START_AGE + Z.of_nat y)%Z)
  /\ (forall y, (y < 60)%nat ->
        (In y years ->
         child (S y)
         = simulate_year (add_wealth (child y) bequest) y None
             (lognormal median_draws y 0) (normal median_draws y 0))
        /\ (~ In y years ->
            child (S y)
            = simulate_year (child y) y None
                (lognormal median_draws y 0) (normal median_draws y 0)))
  /\ (forall y, (y < 60)%nat ->
        let flow :=
          fsub (fadd (nth y (labor_income_history (child 60%nat)) NaN)
                     (nth y (capital_income_history (child 60%nat)) NaN))
               (nth y (consumption_history (child 60%nat)) NaN) in
        (In y years ->
         nth (S y) (wealth_history (child 60%nat)) NaN
         = fadd (fadd (nth y (wealth_history (child 60%nat)) NaN) bequest)
                flow)
        /\ (~ In y years ->
            nth (S y) (wealth_history (child 60%nat)) NaN
            = fadd (nth y (wealth_history (child 60%nat)) NaN) flow)).
Proof.
  apply (bequest_added_at_most_once 1 None median_draws 0). lia.
Defined.

(** X11. In a run, the labor income recorded for individual [i] in year
    [y] is the growing, shocked income
    [base * (1 + INCOME_GROWTH_RATE)^y * lognormal] during the first 40
    years (ages 25 to 64) and the fixed pension
    [base * RETIREMENT_INCOME_RATIO] from the 41st year on, where [base] is
    [BASE_INCOME * (1 + PARENT_WEALTH_EFFECT * parent_rank)]. *)
Theorem labor_income_history_in_run
    (n_people : nat) (mpc_params : option MpcParams) (rs : RandomSource)
    (d : Person) (i k y : nat) :
  (i < n_people)%nat -> (y < k)%nat ->
  let c := nth i (children_after n_people mpc_params rs k) d in
  let base :=
    fmul (Fin (IZR BASE_INCOME))
         (fadd (Fin 1)
               (fmul (Fin PARENT_WEALTH_EFFECT)
                     (nth i (parent_ranks n_people rs) NaN))) in
  nth y (labor_income_history c) NaN
  = if (Z.of_nat y <? 40)%Z
    then fmul (fmul base (Fin ((1 + INCOME_GROWTH_RATE) ^ y)))
              (Fin (lognormal rs y i))
    else fmul base (Fin RETIREMENT_INCOME_RATIO).
Proof.
  intros Hi Hy.
  destruct (child_trace n_people mpc_params rs d k i Hi)
    as (_ & _ & _ & _ & _ & _ & _ & Hlab & _).
  now apply Hlab.
Qed.

Lemma labor_income_history_in_run_witness :
  let c := nth 0 (children_after 1 None median_draws 60)
               (Person_init 0 NaN None) in
  let base :=
    fmul (Fin (IZR BASE_INCOME))
         (fadd (Fin 1)
               (fmul (Fin PARENT_WEALTH_EFFECT)
                     (nth 0 (parent_ranks 1 median_draws) NaN))) in
  nth 45 (labor_income_history c) NaN
  = if (Z.of_nat 45 <? 40)%Z
    then fmul (fmul base (Fin ((1 + INCOME_GROWTH_RATE) ^ 45)))
              (Fin (lognormal median_draws 45 0))
    else fmul base (Fin RETIREMENT_INCOME_RATIO).
Proof.
  apply (labor_income_history_in_run 1 None median_draws
           (Person_init 0 NaN None) 0 60 45); lia.
Defined.

(** X12. The histories of a run form a ledger with one gap: for every
    individual and year [y], the next wealth entry is the current one plus
    labor income plus capital income minus consumption of year [y], and,
    in the year whose starting age equals the drawn death age, plus the
    bequest, which is recorded in no history. *)
Theorem wealth_history_ledger
    (n_people : nat) (mpc_params : option MpcParams) (rs : RandomSource)
    (d : Person) (i k y : nat) :
  (i < n_people)%nat -> (y < k)%nat ->
  let c := nth i (children_after n_people mpc_params rs k) d in
  let opening :=
    if (CHILD_START_AGE + Z.of_nat y =? randint rs i)%Z
    then fadd (nth y (wealth_history c) NaN)
              (nth i (bequests n_people rs) (Fin 0))
    else nth y (wealth_history c) NaN in
  nth (S y) (wealth_history c) NaN
  = fadd opening
         (fsub (fadd (nth y (labor_income_history c) NaN)
                     (nth y (capital_income_history c) NaN))
               (nth y (consumption_history c) NaN)).
Proof.
  intros Hi Hy.
  destruct (child_trace n_people mpc_params rs d k i Hi)
    as (_ & _ & _ & _ & _ & _ & _ & _ & Hled).
  now apply Hled.
Qed.

Lemma wealth_history_ledger_witness :
  let c := nth 0 (children_after 1 None median_draws 60)
               (Person_init 0 NaN None) in
  let opening :=
    if (CHILD_START_AGE + Z.of_nat 5 =? randint median_draws 0)%Z
    then fadd (nth 5 (wealth_history c) NaN)
              (nth 0 (bequests 1 median_draws) (Fin 0))
    else nth 5 (wealth_history c) NaN in
  nth 6 (wealth_history c) NaN
  = fadd opening
         (fsub (fadd (nth 5 (labor_income_history c) NaN)
                     (nth 5 (capital_income_history c) NaN))
               (nth 5 (consumption_history c) NaN)).
Proof.
  apply (wealth_history_ledger 1 None median_draws
           (Person_init 0 NaN None) 0 60 5); lia.
Defined.

(** X13. The wealth with which a run ends is the last entry of the wealth
    history, the value [run_simulation] ranks: for every returned child,
    [wealth_history[-1]] equals [wealth]. *)
Theorem final_wealth_is_wealth
    (n_people : nat) (mpc_params : option MpcParams) (rs : RandomSource)
    (d : Person) (i k : nat) :
  (i < n_people)%nat ->
  let c := nth i (children_after n_people mpc_params rs k) d in
  last (wealth_history c) NaN = wealth c.
Proof.
  intros Hi.
  destruct (child_trace n_people mpc_params rs d k i Hi)
    as (_ & _ & Hlen & _ & _ & _ & Hlast & _).
  cbv zeta. rewrite <- Hlast.
  destruct (wealth_history
              (nth i (children_after n_people mpc_params rs k) d))
    as [|w l] using rev_ind; [discriminate|].
  rewrite last_last. rewrite length_app in Hlen. simpl in Hlen.
  rewrite nth_snoc_eq by lia. reflexivity.
Qed.

Lemma final_wealth_is_wealth_witness :
  let c := nth 0 (children_after 1 None median_draws 60)
               (Person_init 0 NaN None) in
  last (wealth_history c) NaN = wealth c.
Proof.
  pose proof (final_wealth_is_wealth 1 None median_draws
                (Person_init 0 NaN None) 0 60) as H.
  cbv zeta in *. apply H. lia.
Defined.

Section NonNegativeWealth.

Variable n_people : nat.
Variable rs : RandomSource.
Hypothesis pareto_nonneg : forall i, 0 <= pareto_rvs rs i.
Hypothesis share_nonneg : forall i, 0 <= random rs i.

(** With non-negative draws every bequest is a non-negative number. *)
Lemma bequests_nonneg :
  Forall (fun x => exists b, x = Fin b /\ 0 <= b) (bequests n_people rs).
Proof.
  unfold bequests.
  apply Forall_map2_in
    with (PA := fun _ => True)
         (PB := fun x => exists b, x = Fin b /\ 0 <= b).
  - apply Forall_forall. trivial.
  - apply Forall_map2_in
      with (PA := fun x => exists b, x = Fin b /\ 0 <= b)
           (PB := fun x => exists b, x = Fin b /\ 0 <= b).
    + unfold parent_wealth. apply Forall_forall. intros x Hx.
      apply in_map_iff in Hx. destruct Hx as (i & <- & _).
      eexists. split; [reflexivity|].
      unfold WEALTH_SCALE, BASE_INCOME.
      pose proof (pareto_nonneg i). nra.
    + unfold bequest_shares. apply Forall_forall. intros x Hx.
      apply in_map_iff in Hx. destruct Hx as (i & <- & _).
      eexists. split; [reflexivity | apply share_nonneg].
    + intros x y (a & -> & Ha) (b & -> & Hb). simpl.
      eexists. split; [reflexivity | nra].
  - intros [|] y _ Hy; simpl; [assumption|].
    exists 0. split; [reflexivity | lra].
Qed.

Lemma nth_bequests_nonneg (i : nat) :
  exists b, nth i (bequests n_people rs) (Fin 0) = Fin b /\ 0 <= b.
Proof.
  destruct (nth_in_or_default i (bequests n_people rs) (Fin 0)) as [H | ->].
  - pose proof bequests_nonneg as Hf. rewrite Forall_forall in Hf.
    now apply Hf.
  - exists 0. split; [reflexivity | lra].
Qed.

Lemma children_never_negative (mpc_params : option MpcParams)
    (k : nat) (c : Person) :
  In c (children_after n_people mpc_params rs k) ->
  fltb (wealth c) (Fin 0) = false
  /\ Forall (fun w => fltb w (Fin 0) = false) (wealth_history c).
Proof.
  revert k c. apply children_after_ind.
  - intros c Hc. unfold initial_children in Hc. apply in_map_iff in Hc.
    destruct Hc as (r & <- & _). simpl.
    assert (H0 : Rltb 0 0 = false) by (apply Rltb_false; lra).
    split; [exact H0|]. constructor; [exact H0 | constructor].
  - intros k i c [Hw Hh].
    assert (Hopen : fltb (wealth
                      (if (age c =? nth i (death_ages n_people rs) 0)%Z
                       then add_wealth c (nth i (bequests n_people rs) (Fin 0))
                       else c)) (Fin 0) = false).
    { destruct (age c =? nth i (death_ages n_people rs) 0)%Z; [|exact Hw].
      destruct (nth_bequests_nonneg i) as (b & -> & Hb).
      simpl. destruct (wealth c) as [a| | |]; simpl in *; auto.
      apply Rltb_false.
      unfold Rltb in Hw. destruct (Rlt_dec a 0); [discriminate | lra]. }
    unfold child_year.
    match goal with
    | |- fltb (wealth (simulate_year ?p ?y ?mp ?l ?n)) _ = false /\ _ =>
        pose proof (simulate_year_nonneg p y mp l n Hopen) as Hnew
    end.
    split; [exact Hnew|].
    destruct (age c =? nth i (death_ages n_people rs) 0)%Z; simpl;
      apply Forall_app; (split; [exact Hh|]);
      constructor; [exact Hnew | constructor | exact Hnew | constructor].
Qed.

End NonNegativeWealth.

(** X14. In a run whose Pareto draws and bequest shares are not negative,
    no child is ever in debt: at every year boundary the wealth is not
    below zero, and neither is any entry of the wealth history. *)
Theorem wealth_never_negative
    (n_people : nat) (mpc_params : option MpcParams) (rs : RandomSource)
    (k : nat) (c : Person) :
  (forall i, 0 <= pareto_rvs rs i) ->
  (forall i, 0 <= random rs i) ->
  In c (children_after n_people mpc_params rs k) ->
  fltb (wealth c) (Fin 0) = false
  /\ Forall (fun w => fltb w (Fin 0) = false) (wealth_history c).
Proof.
  intros Hp Hs Hc.
  now apply (children_never_negative n_people rs Hp Hs mpc_params k).
Qed.

Lemma wealth_never_negative_witness :
  fltb (wealth (nth 0 (children_after 1 None median_draws 60)
                    (Person_init 0 NaN None))) (Fin 0) = false
  /\ Forall (fun w => fltb w (Fin 0) = false)
            (wealth_history (nth 0 (children_after 1 None median_draws 60)
                                 (Person_init 0 NaN None))).
Proof.
  apply (wealth_never_negative 1 None median_draws 60).
  - intros i. simpl. lra.
  - intros i. simpl. lra.
  - apply nth_In. rewrite length_children_after. lia.
Defined.

(* ================================================================== *)
(** ** Further properties of the ranks *)

Lemma nth_map_default {A B : Type} (f : A -> B) (l : list A)
    (i : nat) (da : A) (db : B) :
  (i < length l)%nat -> nth i (map f l) db = f (nth i l da).
Proof.
  intros Hi. rewrite nth_indep with (d' := f da) by now rewrite length_map.
  apply map_nth.
Qed.

Lemma nth_map2 {A B C : Type} (f : A -> B -> C) (xs : list A) (ys : list B)
    (i : nat) (dx : A) (dy : B) (d : C) :
  length xs = length ys -> (i < length xs)%nat ->
  nth i (map2 f xs ys) d = f (nth i xs dx) (nth i ys dy).
Proof.
  revert ys i. induction xs as [|x xs IH]; intros [|y ys] i H Hi;
    simpl in *; try discriminate; try lia.
  destruct i; [reflexivity|]. apply IH; lia.
Qed.

(** X15. Every parent rank is a finite number in (0, 1], so every child's
    base labor income lies above [BASE_INCOME] and at most 20% above it,
    in every year of the run. *)
Theorem base_labor_income_range
    (n_people : nat) (mpc_params : option MpcParams) (rs : RandomSource) :
  Forall (fun x => exists r, x = Fin r /\ 0 < r <= 1)
         (parent_ranks n_people rs)
  /\ (forall k c,
        In c (children_after n_people mpc_params rs k) ->
        exists b, base_labor_income c = Fin b /\ 50000 < b <= 60000).
Proof.
  assert (Hranks : Forall (fun x => exists r, x = Fin r /\ 0 < r <= 1)
                          (parent_ranks n_people rs)).
  { unfold parent_ranks, rankdata.
    rewrite existsb_is_nan_finite by apply parent_wealth_finite.
    rewrite map_map. apply Forall_forall. intros x Hx.
    apply in_map_iff in Hx. destruct Hx as (w & <- & Hw).
    assert (Hnn : is_nan w = false).
    { pose proof (parent_wealth_finite n_people rs) as Hf.
      rewrite Forall_forall in Hf. specialize (Hf _ Hw).
      destruct w; auto; discriminate. }
    pose proof (average_rank_bounds _ _ Hw Hnn) as Hr.
    assert (Hlen : 0 < INR (length (parent_wealth n_people rs))) by lra.
    simpl. rewrite Reqb_false by lra.
    eexists. split; [reflexivity|]. split.
    - apply Rdiv_lt_0_compat; lra.
    - apply Rdiv_unit; lra. }
  split; [exact Hranks|].
  apply (children_after_ind n_people mpc_params rs
           (fun _ c => exists b, base_labor_income c = Fin b
                                 /\ 50000 < b <= 60000)).
  - intros c Hc. unfold initial_children in Hc. apply in_map_iff in Hc.
    destruct Hc as (r & <- & Hr).
    rewrite Forall_forall in Hranks.
    destruct (Hranks _ Hr) as (v & -> & Hv).
    simpl. eexists. split; [reflexivity|].
    unfold BASE_INCOME, PARENT_WEALTH_EFFECT. lra.
  - intros k i c IH.
    now destruct (base_labor_income_child_year n_people mpc_params rs k i c)
      as [-> _].
Qed.

Lemma base_labor_income_range_witness :
  exists b,
    base_labor_income
      (nth 0 (children_after 1 None median_draws 60) (Person_init 0 NaN None))
    = Fin b /\ 50000 < b <= 60000.
Proof.
  destruct (base_labor_income_range 1 None median_draws) as [_ H].
  apply (H 60%nat). apply nth_In. rewrite length_children_after. lia.
Defined.

Lemma fltb_trans (x y z : float64) :
  fltb x y = true -> fltb y z = true -> fltb x z = true.
Proof.
  destruct x, y, z; simpl; try discriminate; auto.
  rewrite !Rltb_spec. lra.
Qed.

Lemma feqb_fltb_trans (x y z : float64) :
  feqb x y = true -> fltb y z = true -> fltb x z = true.
Proof.
  destruct x, y, z; simpl; try discriminate; auto.
  rewrite Reqb_spec, !Rltb_spec. lra.
Qed.

Lemma filter_union_length {A : Type} (f g h : A -> bool) (l : list A) :
  (forall x, f x = true -> g x = true -> False) ->
  (forall x, f x = true -> h x = true) ->
  (forall x, g x = true -> h x = true) ->
  (length (filter f l) + length (filter g l) <= length (filter h l))%nat.
Proof.
  intros Hd Hf Hg. induction l as [|x l IH]; simpl; [lia|].
  destruct (f x) eqn:Ef, (g x) eqn:Eg.
  - exfalso. eauto.
  - rewrite (Hf x Ef). simpl. lia.
  - rewrite (Hg x Eg). simpl. lia.
  - destruct (h x); simpl; lia.
Qed.

(** [rankdata] respects the order: a strictly smaller entry has a strictly
    smaller average rank. *)
Lemma average_rank_lt (a : list float64) (x y : float64) :
  In x a -> fltb x y = true -> average_rank a x < average_rank a y.
Proof.
  intros Hin Hxy. unfold average_rank, count_lt, count_eq.
  assert (Hnn : is_nan x = false) by (destruct x; auto; discriminate).
  pose proof (filter_union_length
                (fun z => fltb z x) (fun z => feqb z x) (fun z => fltb z y) a
                (fun z => flt_feq_disjoint x z)
                (fun z H => fltb_trans z x y H Hxy)
                (fun z H => feqb_fltb_trans z x y H Hxy)) as Hsum.
  pose proof (filter_In_length (fun z => feqb z x) a x Hin (feqb_refl x Hnn))
    as Heq.
  apply le_INR in Hsum. rewrite plus_INR in Hsum.
  apply le_INR in Heq. simpl in Heq.
  pose proof (pos_INR (length (filter (fun z => feqb z y) a))).
  lra.
Qed.

(** X16. Bequest ranks respect the order of the bequests: whenever the
    bequest of [j] is positive and larger than that of [i], the bequest
    rank of [j] is strictly larger than that of [i]. *)
Theorem bequest_rank_monotone (n_people : nat) (rs : RandomSource)
    (i j : nat) :
  (i < n_people)%nat -> (j < n_people)%nat ->
  fgtb (nth j (bequests n_people rs) (Fin 0)) (Fin 0) = true ->
  fltb (nth i (bequests n_people rs) (Fin 0))
       (nth j (bequests n_people rs) (Fin 0)) = true ->
  fltb (nth i (bequest_ranks n_people rs) (Fin 0))
       (nth j (bequest_ranks n_people rs) (Fin 0)) = true.
Proof.
  intros Hi Hj Hpos Hlt.
  rewrite !nth_bequest_ranks by assumption. rewrite Hpos.
  pose proof (normalized_rank_bounds n_people rs j Hj Hpos) as Hrj.
  cbv zeta in Hrj.
  destruct (fgtb (nth i (bequests n_people rs) (Fin 0)) (Fin 0)) eqn:Hpi.
  - simpl. apply Rltb_true.
    assert (Hin : In (nth i (bequests n_people rs) (Fin 0))
                     (compress (positive_bequest_mask n_people rs)
                               (bequests n_people rs))).
    { apply In_compress; [now rewrite length_bequests|].
      now rewrite nth_positive_bequest_mask. }
    pose proof (average_rank_lt _ _ _ Hin Hlt) as Hr.
    assert (Hnn : is_nan (nth i (bequests n_people rs) (Fin 0)) = false).
    { destruct (nth i (bequests n_people rs) (Fin 0)); auto; discriminate. }
    pose proof (average_rank_bounds _ _ Hin Hnn) as Hb.
    assert (Hlen : 0 < / INR (length
                      (compress (positive_bequest_mask n_people rs)
                                (bequests n_people rs))))
      by (apply Rinv_0_lt_compat; lra).
    unfold Rdiv. nra.
  - simpl. apply Rltb_true. lra.
Qed.

Lemma bequest_rank_monotone_witness :
  fltb (nth 0 (bequest_ranks 2 distinct_draws) (Fin 0))
       (nth 1 (bequest_ranks 2 distinct_draws) (Fin 0)) = true.
Proof.
  destruct bequest_ranks_of_two as [Hb _].
  apply bequest_rank_monotone; try lia; rewrite Hb; simpl;
    apply Rltb_true; lra.
Defined.

(** X17. Wealth ranks respect the order of final wealth: with at least two
    people and no NaN among the final wealths, a child whose final wealth
    is strictly smaller has a strictly smaller wealth rank. *)
Theorem wealth_rank_monotone (n_people : nat) (children : list Person)
    (d : Person) (i j : nat) :
  (2 <= n_people)%nat ->
  length children = n_people ->
  Forall (fun c => is_nan (last (wealth_history c) NaN) = false) children ->
  (i < n_people)%nat -> (j < n_people)%nat ->
  fltb (last (wealth_history (nth i children d)) NaN)
       (last (wealth_history (nth j children d)) NaN) = true ->
  fltb (nth i (wealth_ranks n_people children) NaN)
       (nth j (wealth_ranks n_people children) NaN) = true.
Proof.
  intros Hn Hlen Hnan Hi Hj Hlt.
  assert (Hfw : Forall (fun x => is_nan x = false) (final_wealth children)).
  { unfold final_wealth. apply Forall_forall. intros x Hx.
    apply in_map_iff in Hx. destruct Hx as (c & <- & Hc).
    rewrite Forall_forall in Hnan. now apply Hnan. }
  assert (Hl : length (final_wealth children) = n_people)
    by (unfold final_wealth; now rewrite length_map).
  assert (Hnth : forall m, (m < n_people)%nat ->
            nth m (final_wealth children) NaN
            = last (wealth_history (nth m children d)) NaN).
  { intros m Hm. unfold final_wealth.
    apply (nth_map_default (fun c => last (wealth_history c) NaN)). lia. }
  unfold wealth_ranks, rankdata.
  rewrite existsb_is_nan_false by assumption. rewrite map_map.
  rewrite !(nth_map_default _ _ _ NaN NaN) by lia.
  rewrite !Hnth by assumption.
  assert (Hd : IZR (Z.of_nat n_people - 1) = INR n_people - 1)
    by (now rewrite minus_IZR, <- INR_IZR_INZ).
  assert (H2 : 2 <= INR n_people) by (apply le_INR in Hn; simpl in Hn; lra).
  simpl. rewrite Reqb_false by lra. simpl. apply Rltb_true.
  assert (Hin : In (last (wealth_history (nth i children d)) NaN)
                   (final_wealth children)).
  { rewrite <- Hnth by assumption. apply nth_In. lia. }
  pose proof (average_rank_lt _ _ _ Hin Hlt) as Hr.
  assert (Hinv : 0 < / IZR (Z.of_nat n_people - 1))
    by (apply Rinv_0_lt_compat; lra).
  unfold Rdiv. apply Rmult_lt_compat_r; [assumption | lra].
Qed.

Lemma wealth_rank_monotone_witness :
  fltb (nth 0 (wealth_ranks 2 [Person_init 25 (Fin 1) None;
                               Person_init 25 (Fin 2) None]) NaN)
       (nth 1 (wealth_ranks 2 [Person_init 25 (Fin 1) None;
                               Person_init 25 (Fin 2) None]) NaN) = true.
Proof.
  apply (wealth_rank_monotone 2 _ (Person_init 25 (Fin 1) None) 0 1);
    try lia; try reflexivity.
  - repeat constructor.
  - simpl. apply Rltb_true. lra.
Defined.

Section Eligibility.

Variable n_people : nat.
Variable rs : RandomSource.

Lemma nth_parent_wealth (i : nat) :
  (i < n_people)%nat ->
  nth i (parent_wealth n_people rs) NaN
  = Fin (pareto_rvs rs i * IZR WEALTH_SCALE * IZR BASE_INCOME).
Proof.
  intros Hi. unfold parent_wealth.
  rewrite (nth_map_default _ _ _ 0%nat) by (now rewrite length_seq).
  rewrite seq_nth by assumption. reflexivity.
Qed.

Lemma nth_bequest_shares (i : nat) :
  (i < n_people)%nat ->
  nth i (bequest_shares n_people rs) NaN = Fin (random rs i).
Proof.
  intros Hi. unfold bequest_shares.
  rewrite (nth_map_default _ _ _ 0%nat) by (now rewrite length_seq).
  rewrite seq_nth by assumption. reflexivity.
Qed.

(** Entry [i] of [bequests]: the parent's wealth times the share when the
    parent rank reaches [NO_BEQUEST_PROB], zero otherwise. *)
Lemma nth_bequests (i : nat) :
  (i < n_people)%nat ->
  nth i (bequests n_people rs) (Fin 0)
  = if fgeb (nth i (parent_ranks n_people rs) NaN) (Fin NO_BEQUEST_PROB)
    then Fin (pareto_rvs rs i * IZR WEALTH_SCALE * IZR BASE_INCOME
              * random rs i)
    else Fin 0.
Proof.
  intros Hi. unfold bequests.
  rewrite (nth_map2 _ _ _ _ false NaN).
  - unfold will_get_bequest.
    rewrite (nth_map_default _ _ _ NaN) by (now rewrite length_parent_ranks).
    rewrite (nth_map2 _ _ _ _ NaN NaN)
      by (now rewrite length_parent_wealth, ?length_bequest_shares).
    now rewrite nth_parent_wealth, nth_bequest_shares.
  - unfold will_get_bequest.
    rewrite length_map, length_parent_ranks, length_map2;
      now rewrite length_parent_wealth, ?length_bequest_shares.
  - unfold will_get_bequest. now rewrite length_map, length_parent_ranks.
Qed.

End Eligibility.

(** X18. The threshold appears twice and the two uses agree: with positive
    Pareto draws and bequest shares, an individual whose parent rank
    reaches [NO_BEQUEST_PROB] (0.4) has a bequest rank above 0.4, and every
    other individual has bequest rank exactly 0. *)
Theorem bequest_rank_by_eligibility (n_people : nat) (rs : RandomSource)
    (i : nat) :
  (forall m, 0 < pareto_rvs rs m) ->
  (forall m, 0 < random rs m) ->
  (i < n_people)%nat ->
  let eligible :=
    fgeb (nth i (parent_ranks n_people rs) NaN) (Fin NO_BEQUEST_PROB) in
  let rank := nth i (bequest_ranks n_people rs) (Fin 0) in
  (eligible = true -> fltb (Fin (4 / 10)) rank = true)
  /\ (eligible = false -> rank = Fin 0).
Proof.
  intros Hp Hs Hi. cbv zeta.
  pose proof (nth_bequest_ranks n_people rs i Hi) as Hrank.
  cbv zeta in Hrank. rewrite Hrank.
  pose proof (nth_bequests n_people rs i Hi) as Hb.
  split; intros He; rewrite He in Hb.
  - assert (Hpos : fgtb (nth i (bequests n_people rs) (Fin 0)) (Fin 0)
                   = true).
    { rewrite Hb. unfold fgtb. simpl. apply Rltb_true.
      unfold WEALTH_SCALE, BASE_INCOME.
      pose proof (Hp i). pose proof (Hs i).
      apply Rmult_lt_0_compat; [|assumption]. lra. }
    rewrite Hpos.
    pose proof (normalized_rank_bounds n_people rs i Hi Hpos) as Hr.
    cbv zeta in Hr. simpl. apply Rltb_true. lra.
  - rewrite Hb. unfold fgtb. simpl. now rewrite Rltb_false by lra.
Qed.

Lemma bequest_rank_by_eligibility_witness :
  let eligible :=
    fgeb (nth 0 (parent_ranks 2 distinct_draws) NaN) (Fin NO_BEQUEST_PROB) in
  let rank := nth 0 (bequest_ranks 2 distinct_draws) (Fin 0) in
  (eligible = true -> fltb (Fin (4 / 10)) rank = true)
  /\ (eligible = false -> rank = Fin 0).
Proof.
  apply (bequest_rank_by_eligibility 2 distinct_draws 0).
  - intros m. simpl. pose proof (pos_INR m). lra.
  - intros m. simpl. lra.
  - lia.
Defined.

Lemma count_eq_compress_none (mask : list bool) (l : list float64)
    (x : float64) :
  (forall j, (j < length l)%nat -> feqb (nth j l NaN) x = false) ->
  count_eq (compress mask l) x = 0%nat.
Proof.
  unfold count_eq. revert mask.
  induction l as [|y l IH]; intros [|[|] mask] H; simpl; try reflexivity.
  - assert (H0 : feqb y x = false) by (apply (H 0%nat); simpl; lia).
    rewrite H0.
    apply IH. intros j Hj. apply (H (S j)). simpl. lia.
  - apply IH. intros j Hj. apply (H (S j)). simpl. lia.
Qed.

Lemma count_eq_compress_one (mask : list bool) (l : list float64)
    (x : float64) (i : nat) :
  (i < length l)%nat ->
  nth i mask false = true ->
  feqb (nth i l NaN) x = true ->
  (forall j, (j < length l)%nat -> j <> i -> feqb (nth j l NaN) x = false) ->
  count_eq (compress mask l) x = 1%nat.
Proof.
  revert mask i.
  induction l as [|y l IH]; intros mask i Hi Hm Hx Hothers;
    simpl in *; [lia|].
  destruct mask as [|m mask]; [destruct i; discriminate|].
  destruct i as [|i]; simpl in *.
  - subst m. unfold count_eq. simpl. rewrite Hx. simpl. f_equal.
    apply count_eq_compress_none.
    intros j Hj. apply (Hothers (S j)); lia.
  - assert (Hy : feqb y x = false) by (apply (Hothers 0%nat); lia).
    assert (Hrec : count_eq (compress mask l) x = 1%nat).
    { apply (IH mask i); auto; try lia.
      intros j Hj Hne. apply (Hothers (S j)); lia. }
    destruct m; [|exact Hrec].
    unfold count_eq in *. simpl. now rewrite Hy.
Qed.

Lemma count_lt_eq_all (a : list float64) (x : float64) :
  (forall y, In y a -> fltb y x = true \/ feqb y x = true) ->
  (count_lt a x + count_eq a x = length a)%nat.
Proof.
  unfold count_lt, count_eq.
  induction a as [|y a IH]; intros H; simpl; [reflexivity|].
  assert (IH' : (length (filter (fun z => fltb z x) a)
                 + length (filter (fun z => feqb z x) a) = length a)%nat)
    by (apply IH; intros z Hz; apply H; now right).
  destruct (fltb y x) eqn:El, (feqb y x) eqn:Ee; simpl; try lia.
  - exfalso. eapply flt_feq_disjoint; eauto.
  - destruct (H y (or_introl eq_refl)); congruence.
Qed.

Lemma In_compress_inv {A : Type} (mask : list bool) (a : list A) (x : A) :
  In x (compress mask a) -> In x a.
Proof.
  revert a. induction mask as [|[|] mask IH]; intros [|y a] H;
    simpl in *; try contradiction.
  - destruct H as [-> | H]; auto.
  - right. auto.
Qed.

Lemma fltb_not_feqb (x y : float64) : fltb x y = true -> feqb x y = false.
Proof.
  intros H. destruct (feqb x y) eqn:E; [|reflexivity].
  exfalso. eapply flt_feq_disjoint; eauto.
Qed.

(** The individual whose positive bequest is strictly larger than every
    other bequest has bequest rank exactly 1.0. *)
Lemma top_bequest_rank_value (n_people : nat) (rs : RandomSource)
    (i : nat) :
  (i < n_people)%nat ->
  fgtb (nth i (bequests n_people rs) (Fin 0)) (Fin 0) = true ->
  (forall j, (j < n_people)%nat -> j <> i ->
             fltb (nth j (bequests n_people rs) (Fin 0))
                  (nth i (bequests n_people rs) (Fin 0)) = true) ->
  nth i (bequest_ranks n_people rs) (Fin 0) = Fin 1.
Proof.
  intros Hi Hpos Htop.
  pose proof (nth_bequest_ranks n_people rs i Hi) as Hrank.
  cbv zeta in Hrank. rewrite Hrank, Hpos. f_equal.
  assert (Hnn : is_nan (nth i (bequests n_people rs) (Fin 0)) = false).
  { destruct (nth i (bequests n_people rs) (Fin 0)); auto; discriminate. }
  assert (Hdef : forall j, nth j (bequests n_people rs) NaN
                           = nth j (bequests n_people rs) (Fin 0)
                           \/ (n_people <= j)%nat).
  { intros j. destruct (Nat.lt_ge_cases j n_people) as [Hj | Hj]; [|now right].
    left. apply nth_indep. now rewrite length_bequests. }
  assert (Heq : count_eq (compress (positive_bequest_mask n_people rs)
                                   (bequests n_people rs))
                         (nth i (bequests n_people rs) (Fin 0)) = 1%nat).
  { apply (count_eq_compress_one _ _ _ i).
    - now rewrite length_bequests.
    - now rewrite nth_positive_bequest_mask.
    - destruct (Hdef i) as [-> | H]; [now apply feqb_refl | lia].
    - intros j Hj Hne. rewrite length_bequests in Hj.
      destruct (Hdef j) as [-> | H]; [|lia].
      apply fltb_not_feqb. now apply Htop. }
  assert (Hall : (count_lt (compress (positive_bequest_mask n_people rs)
                                     (bequests n_people rs))
                           (nth i (bequests n_people rs) (Fin 0))
                  + count_eq (compress (positive_bequest_mask n_people rs)
                                       (bequests n_people rs))
                             (nth i (bequests n_people rs) (Fin 0))
                  = length (compress (positive_bequest_mask n_people rs)
                                     (bequests n_people rs)))%nat).
  { apply count_lt_eq_all. intros y Hy. apply In_compress_inv in Hy.
    destruct (In_nth _ _ (Fin 0) Hy) as (j & Hj & <-).
    rewrite length_bequests in Hj.
    destruct (Nat.eq_dec j i) as [-> | Hne].
    - right. now apply feqb_refl.
    - left. now apply Htop. }
  unfold average_rank. rewrite Heq in *.
  rewrite <- Hall, plus_INR. simpl INR.
  assert (Hlt : 0 <= INR (count_lt
                            (compress (positive_bequest_mask n_people rs)
                                      (bequests n_people rs))
                            (nth i (bequests n_people rs) (Fin 0))))
    by apply pos_INR.
  field_simplify_eq; lra.
Qed.

(* ================================================================== *)
(** ** Further properties of the rank statistics *)

Section RankStatisticsFacts.

Variable n_bins : nat.

Lemma length_bins : length (bins n_bins) = S n_bins.
Proof.
  unfold bins, linspace. rewrite length_map, length_seq. lia.
Qed.

Lemma nth_bin_mask (ranks : list float64) (b j : nat) :
  (j < length ranks)%nat ->
  nth j (bin_mask ranks n_bins b) false
  = fgeb (nth j ranks NaN) (nth b (bins n_bins) NaN)
    && fltb (nth j ranks NaN) (nth (b + 1) (bins n_bins) NaN).
Proof.
  intros Hj. unfold bin_mask.
  now rewrite (nth_map_default _ _ _ NaN).
Qed.

(** Only finite ranks are selected, and bin [b] selects exactly those in
    [b / n_bins, (b + 1) / n_bins). *)
Lemma bin_selects_value (x : float64) (b : nat) :
  (b < n_bins)%nat ->
  fgeb x (nth b (bins n_bins) NaN) && fltb x (nth (b + 1) (bins n_bins) NaN)
  = true ->
  exists r, x = Fin r
            /\ INR b / INR n_bins <= r < (INR b + 1) / INR n_bins.
Proof.
  intros Hb Hsel. rewrite !nth_bins in Hsel by lia.
  destruct x as [r| | |]; simpl in Hsel; try discriminate.
  exists r. split; [reflexivity|].
  apply (bin_selects_iff n_bins b r Hb).
  unfold bin_mask. simpl nth at 1. now rewrite !nth_bins by lia.
Qed.

Lemma bin_bounds (b : nat) :
  (b < n_bins)%nat ->
  0 <= INR b / INR n_bins /\ (INR b + 1) / INR n_bins <= 1.
Proof.
  intros Hb.
  assert (Hpos : 0 < INR n_bins) by (apply lt_0_INR; lia).
  assert (Hle : INR b + 1 <= INR n_bins)
    by (rewrite <- S_INR; apply le_INR; lia).
  pose proof (pos_INR b) as H0.
  split.
  - apply Rdiv_unit; lra.
  - apply Rdiv_unit; lra.
Qed.

(** A value outside [0, 1), NaN and the infinities included, is selected
    by no bin. *)
Lemma bins_selecting_outside (x : float64) :
  fleb (Fin 0) x && fltb x (Fin 1) = false ->
  bins_selecting n_bins x = [].
Proof.
  intros Hout. unfold bins_selecting.
  destruct (filter (fun i => nth 0 (bin_mask [x] n_bins i) false)
                   (seq 0 n_bins)) as [|b l] eqn:E; [reflexivity|].
  assert (Hb : In b (b :: l)) by now left.
  rewrite <- E in Hb. apply filter_In in Hb. destruct Hb as [Hb Hsel].
  apply in_seq in Hb.
  rewrite nth_bin_mask in Hsel by (simpl; lia). simpl nth in Hsel.
  destruct (bin_selects_value x b) as (r & -> & Hr); [lia | assumption |].
  destruct (bin_bounds b) as [Hlo Hhi]; [lia|].
  exfalso. apply andb_false_iff in Hout.
  destruct Hout as [Hout | Hout].
  - assert (fleb (Fin 0) (Fin r) = true) by (apply fleb_Fin; lra).
    congruence.
  - simpl in Hout. rewrite Rltb_true in Hout by lra. discriminate.
Qed.

End RankStatisticsFacts.

(** X20. With at least one bin, a bequest rank is counted in exactly one
    bin when it is a number in [0, 1) and in no bin otherwise: 1.0, values
    outside [0, 1], the infinities and NaN are all dropped. *)
Theorem bins_selecting_count (n_bins : nat) (x : float64) :
  (0 < n_bins)%nat ->
  length (bins_selecting n_bins x)
  = if fleb (Fin 0) x && fltb x (Fin 1) then 1%nat else 0%nat.
Proof.
  intros Hn. destruct (fleb (Fin 0) x && fltb x (Fin 1)) eqn:E.
  - apply andb_true_iff in E. destruct E as [E0 E1].
    destruct x as [r| | |]; try discriminate.
    apply fleb_Fin in E0. simpl in E1. apply Rltb_spec in E1.
    apply rank_below_one_in_one_bin; [assumption | lra].
  - now rewrite bins_selecting_outside.
Qed.

Lemma bins_selecting_count_witness :
  length (bins_selecting 100 (Fin (85 / 100)))
  = if fleb (Fin 0) (Fin (85 / 100)) && fltb (Fin (85 / 100)) (Fin 1)
    then 1%nat else 0%nat.
Proof.
  apply bins_selecting_count. lia.
Defined.

Section BinCenters.

Variable n_bins : nat.

Lemma bins_tl :
  tl (bins n_bins)
  = map (fun i => Fin (0 + INR i * ((1 - 0) / INR n_bins))) (seq 1 n_bins).
Proof.
  unfold bins, linspace. rewrite Nat.add_sub.
  replace (n_bins + 1)%nat with (S n_bins) by lia. reflexivity.
Qed.

Lemma bins_removelast :
  removelast (bins n_bins)
  = map (fun i => Fin (0 + INR i * ((1 - 0) / INR n_bins))) (seq 0 n_bins).
Proof.
  unfold bins, linspace. rewrite Nat.add_sub.
  replace (n_bins + 1)%nat with (S n_bins) by lia.
  rewrite seq_S, map_app. simpl map at 2. apply removelast_last.
Qed.

Lemma length_bin_centers : length (bin_centers n_bins) = n_bins.
Proof.
  unfold bin_centers. rewrite length_map, length_map2;
    rewrite bins_tl, ?bins_removelast, !length_map, !length_seq; reflexivity.
Qed.

Lemma nth_bin_centers (i : nat) :
  (i < n_bins)%nat ->
  nth i (bin_centers n_bins) NaN
  = Fin ((2 * INR i + 1) / (2 * INR n_bins)).
Proof.
  intros Hi. unfold bin_centers.
  assert (Hpos : 0 < INR n_bins) by (apply lt_0_INR; lia).
  rewrite (nth_map_default _ _ _ NaN)
    by (rewrite length_map2;
        rewrite bins_tl, ?bins_removelast, !length_map, !length_seq; lia).
  rewrite (nth_map2 _ _ _ _ NaN NaN)
    by (rewrite bins_tl, ?bins_removelast, !length_map, !length_seq; lia).
  rewrite bins_tl, bins_removelast.
  rewrite !(nth_map_default _ _ _ 0%nat) by (rewrite length_seq; lia).
  rewrite !seq_nth by lia.
  change (1 + i)%nat with (S i). rewrite S_INR.
  simpl fadd. simpl fdiv. rewrite Reqb_false by lra. f_equal.
  field. lra.
Qed.

End BinCenters.

(** X21. [calculate_rank_statistics] returns three arrays of [n_bins]
    entries each; the i-th bin centre is half the sum of the two edges of
    bin [i], and the centres increase strictly. *)
Theorem rank_statistics_shape
    (bequest_ranks wealth_ranks : list float64) (n_bins : nat) :
  let '(centers, mean_ranks, std_ranks) :=
    calculate_rank_statistics bequest_ranks wealth_ranks n_bins in
  length centers = n_bins
  /\ length mean_ranks = n_bins
  /\ length std_ranks = n_bins
  /\ (forall i, (i < n_bins)%nat ->
        nth i centers NaN
        = fdiv (fadd (nth (i + 1) (bins n_bins) NaN)
                     (nth i (bins n_bins) NaN))
               (Fin 2))
  /\ (forall i j, (i < j)%nat -> (j < n_bins)%nat ->
        fltb (nth i centers NaN) (nth j centers NaN) = true).
Proof.
  unfold calculate_rank_statistics.
  split; [apply length_bin_centers|].
  split; [now rewrite length_map, length_seq|].
  split; [now rewrite length_map, length_seq|].
  split.
  - intros i Hi. rewrite nth_bin_centers by assumption.
    rewrite !nth_bins by lia.
    assert (Hpos : 0 < INR n_bins) by (apply lt_0_INR; lia).
    replace (i + 1)%nat with (S i) by lia. rewrite S_INR.
    cbn [fadd fdiv]. rewrite Reqb_false by lra. f_equal.
    field. lra.
  - intros i j Hij Hj. rewrite !nth_bin_centers by lia.
    simpl. apply Rltb_true.
    assert (Hpos : 0 < INR n_bins) by (apply lt_0_INR; lia).
    assert (Hlt : INR i < INR j) by (apply lt_INR; lia).
    assert (Hinv : 0 < / (2 * INR n_bins))
      by (apply Rinv_0_lt_compat; lra).
    unfold Rdiv. apply Rmult_lt_compat_r; [assumption | lra].
Qed.

Lemma rank_statistics_shape_witness :
  nth 0 (bin_centers 100) NaN
  = fdiv (fadd (nth (0 + 1) (bins 100) NaN) (nth 0 (bins 100) NaN)) (Fin 2)
  /\ fltb (nth 0 (bin_centers 100) NaN) (nth 1 (bin_centers 100) NaN) = true.
Proof.
  pose proof (rank_statistics_shape [] [] 100) as H.
  unfold calculate_rank_statistics in H.
  destruct H as (_ & _ & _ & Hc & Hm).
  split; [apply Hc | apply Hm]; lia.
Defined.

(** X19. The individual whose positive bequest is strictly larger than
    every other bequest has bequest rank exactly 1.0, and is therefore
    left out of every bin of [calculate_rank_statistics], whatever the
    number of bins. *)
Theorem top_bequest_dropped (n_people : nat) (rs : RandomSource) (i : nat) :
  (i < n_people)%nat ->
  fgtb (nth i (bequests n_people rs) (Fin 0)) (Fin 0) = true ->
  (forall j, (j < n_people)%nat -> j <> i ->
             fltb (nth j (bequests n_people rs) (Fin 0))
                  (nth i (bequests n_people rs) (Fin 0)) = true) ->
  nth i (bequest_ranks n_people rs) (Fin 0) = Fin 1
  /\ (forall n_bins b,
        (b < n_bins)%nat ->
        nth i (bin_mask (bequest_ranks n_people rs) n_bins b) false = false).
Proof.
  intros Hi Hpos Htop.
  pose proof (top_bequest_rank_value n_people rs i Hi Hpos Htop) as Hone.
  split; [exact Hone|].
  intros n_bins b Hb.
  rewrite nth_bin_mask by (now rewrite length_bequest_ranks).
  rewrite nth_indep with (d' := Fin 0) by (now rewrite length_bequest_ranks).
  rewrite Hone.
  destruct (fgeb (Fin 1) (nth b (bins n_bins) NaN)
            && fltb (Fin 1) (nth (b + 1) (bins n_bins) NaN)) eqn:E;
    [|reflexivity].
  destruct (bin_selects_value n_bins (Fin 1) b Hb E) as (r & Hr & Hrange).
  injection Hr as <-.
  destruct (bin_bounds n_bins b Hb) as [_ Hhi]. lra.
Qed.

Lemma top_bequest_dropped_witness :
  nth 1 (bequest_ranks 2 distinct_draws) (Fin 0) = Fin 1
  /\ (forall n_bins b,
        (b < n_bins)%nat ->
        nth 1 (bin_mask (bequest_ranks 2 distinct_draws) n_bins b) false
        = false).
Proof.
  destruct bequest_ranks_of_two as [Hb _].
  apply top_bequest_dropped; try lia.
  - rewrite Hb. simpl. apply Rltb_true. lra.
  - intros j Hj Hne. assert (j = 0%nat) by lia. subst j.
    rewrite Hb. simpl. apply Rltb_true. lra.
Defined.

(** Every bequest rank of a run is 0 or a number in (0.4, 1]. *)
Lemma bequest_ranks_values (n_people : nat) (rs : RandomSource) :
  Forall (fun x => x = Fin 0 \/ exists v, x = Fin v /\ 4 / 10 < v <= 1)
         (bequest_ranks n_people rs).
Proof.
  apply Forall_nth. intros i d Hi. rewrite length_bequest_ranks in Hi.
  rewrite nth_indep with (d' := Fin 0) by now rewrite length_bequest_ranks.
  rewrite nth_bequest_ranks by assumption.
  destruct (fgtb (nth i (bequests n_people rs) (Fin 0)) (Fin 0)) eqn:Hb.
  - pose proof (normalized_rank_bounds n_people rs i Hi Hb) as Hr.
    cbv zeta in Hr. right. eexists. split; [reflexivity | lra].
  - now left.
Qed.

Lemma count_true_map_none {A : Type} (p : A -> bool) (l : list A) :
  Forall (fun x => p x = false) l -> count_true (map p l) = 0%nat.
Proof.
  unfold count_true. induction 1 as [|x l Hx _ IH]; simpl; [reflexivity|].
  now rewrite Hx.
Qed.

(** X22. The gap in the rank scale shows in the statistics: for the
    bequest ranks of any run and any bin count, every bin other than the
    first that ends at or below 0.4 is empty, so its mean and its standard
    deviation are the missing-value marker NaN. *)
Theorem bins_below_threshold_empty
    (n_people : nat) (rs : RandomSource) (wealth_ranks : list float64)
    (n_bins b : nat) :
  (1 <= b)%nat -> (b < n_bins)%nat -> (INR b + 1) / INR n_bins <= 4 / 10 ->
  count_true (bin_mask (bequest_ranks n_people rs) n_bins b) = 0%nat
  /\ bin_mean (bequest_ranks n_people rs) wealth_ranks n_bins b = NaN
  /\ bin_std (bequest_ranks n_people rs) wealth_ranks n_bins b = NaN.
Proof.
  intros Hb1 Hbn Hend.
  assert (Hempty : count_true (bin_mask (bequest_ranks n_people rs) n_bins b)
                   = 0%nat).
  { unfold bin_mask. apply count_true_map_none.
    pose proof (bequest_ranks_values n_people rs) as Hv.
    rewrite Forall_forall in *. intros x Hx.
    destruct (fgeb x (nth b (bins n_bins) NaN)
              && fltb x (nth (b + 1) (bins n_bins) NaN)) eqn:E;
      [|reflexivity].
    destruct (bin_selects_value n_bins x b Hbn E) as (r & -> & Hr).
    assert (Hpos : 0 < INR n_bins) by (apply lt_0_INR; lia).
    assert (Hlo : 0 < INR b / INR n_bins).
    { apply Rdiv_lt_0_compat; [|assumption]. apply lt_0_INR. lia. }
    destruct (Hv _ Hx) as [H0 | (v & Hv' & Hrange)].
    - injection H0 as ->. lra.
    - injection Hv' as ->. lra. }
  split; [exact Hempty|].
  unfold bin_mean, bin_std. now rewrite Hempty.
Qed.

Lemma bins_below_threshold_empty_witness :
  count_true (bin_mask (bequest_ranks 2 distinct_draws) 100 20) = 0%nat
  /\ bin_mean (bequest_ranks 2 distinct_draws) [Fin 0; Fin 1] 100 20 = NaN
  /\ bin_std (bequest_ranks 2 distinct_draws) [Fin 0; Fin 1] 100 20 = NaN.
Proof.
  apply bins_below_threshold_empty; try lia.
  simpl. lra.
Defined.

Lemma fold_fadd_unit (a : list float64) (acc : R) :
  Forall (fun x => in_unit_interval x = true) a ->
  exists s, fold_left fadd a (Fin acc) = Fin s
            /\ acc <= s <= acc + INR (length a).
Proof.
  intros H. revert acc. induction H as [|x a Hx _ IH]; intros acc.
  - exists acc. simpl. split; [reflexivity | lra].
  - unfold in_unit_interval in Hx. apply andb_true_iff in Hx.
    destruct Hx as [H0 H1].
    destruct x as [r| | |]; try discriminate.
    apply fleb_Fin in H0, H1.
    destruct (IH (acc + r)) as (s & Hs & Hb).
    exists s. split; [exact Hs|].
    change (length (Fin r :: a)) with (S (length a)). rewrite S_INR. lra.
Qed.

(** X23. Whatever the bequest ranks, when every wealth rank lies in
    [0, 1] each bin mean is either the missing-value marker NaN or a
    number in [0, 1]. *)
Theorem bin_mean_in_unit_interval
    (bequest_ranks wealth_ranks : list float64) (n_bins b : nat) :
  Forall (fun x => in_unit_interval x = true) wealth_ranks ->
  bin_mean bequest_ranks wealth_ranks n_bins b = NaN
  \/ in_unit_interval (bin_mean bequest_ranks wealth_ranks n_bins b) = true.
Proof.
  intros Hw. unfold bin_mean.
  destruct (0 <? count_true (bin_mask bequest_ranks n_bins b))%nat;
    [|now left].
  pose proof (Forall_compress _ (bin_mask bequest_ranks n_bins b) _ Hw)
    as Hsel.
  destruct (fold_fadd_unit _ 0 Hsel) as (s & Hs & Hb).
  unfold mean, fsum. rewrite Hs.
  destruct (compress (bin_mask bequest_ranks n_bins b) wealth_ranks)
    as [|x l] eqn:E.
  - left. simpl in *. rewrite Reqb_true by reflexivity.
    unfold signed_inf. now rewrite !Rltb_false by lra.
  - right.
    assert (Hlen : 0 < INR (length (x :: l))) by (apply lt_0_INR; simpl; lia).
    cbn [fdiv]. rewrite Reqb_false by lra.
    unfold in_unit_interval. apply andb_true_iff.
    rewrite !fleb_Fin. apply Rdiv_unit; lra.
Qed.

Lemma bin_mean_in_unit_interval_witness :
  bin_mean [Fin (85 / 100)] [Fin (1 / 2)] 100 85 = NaN
  \/ in_unit_interval (bin_mean [Fin (85 / 100)] [Fin (1 / 2)] 100 85) = true.
Proof.
  apply bin_mean_in_unit_interval.
  constructor; [|constructor].
  unfold in_unit_interval. apply andb_true_iff.
  rewrite !fleb_Fin. lra.
Defined.

(* ================================================================== *)
(** ** The data of the figures *)

Lemma length_arange (a b : Z) : length (arange a b) = Z.to_nat (b - a).
Proof. unfold arange. now rewrite length_map, length_seq. Qed.

Lemma nth_arange (a b : Z) (j : nat) :
  (j < Z.to_nat (b - a))%nat -> nth j (arange a b) 0%Z = (a + Z.of_nat j)%Z.
Proof.
  intros Hj. unfold arange.
  rewrite (nth_map_default _ _ _ 0%nat) by (now rewrite length_seq).
  now rewrite seq_nth.
Qed.

Lemma nth_tl {A : Type} (l : list A) (j : nat) (d : A) :
  nth j (tl l) d = nth (S j) l d.
Proof. destruct l; [now destruct j | reflexivity]. Qed.

Lemma length_tl {A : Type} (l : list A) : length (tl l) = pred (length l).
Proof. now destruct l. Qed.

(** X24. For a child of a run after [k] years, the three traces of
    [plot_life_trajectory] are well formed: the wealth trace has [k + 1]
    points at ages 25, 26, ..., and the income and consumption traces have
    [k] points each, year [y] being drawn at age 26 + y (the age reached
    at the end of that year) with total income
    [labor_income + capital_income] of that year. *)
Theorem life_trajectory_traces
    (n_people : nat) (mpc_params : option MpcParams) (rs : RandomSource)
    (d : Person) (i k : nat) :
  (i < n_people)%nat ->
  let c := nth i (children_after n_people mpc_params rs k) d in
  let '((ages, wealths), (income_ages, incomes),
        (consumption_ages, consumptions)) :=
    plot_life_trajectory_data c in
  length ages = S k /\ length wealths = S k
  /\ length income_ages = k /\ length incomes = k
  /\ length consumption_ages = k /\ length consumptions = k
  /\ (forall j, (j <= k)%nat ->
        nth j ages 0%Z = (CHILD_START_AGE + Z.of_nat j)%Z)
  /\ (forall y, (y < k)%nat ->
        nth y income_ages 0%Z = (CHILD_START_AGE + 1 + Z.of_nat y)%Z
        /\ nth y incomes NaN
           = fadd (nth y (labor_income_history c) NaN)
                  (nth y (capital_income_history c) NaN)).
Proof.
  intros Hi.
  destruct (child_trace n_people mpc_params rs d k i Hi)
    as (_ & _ & Hw & Hl & Hc & Hs & _).
  cbv zeta in *. unfold plot_life_trajectory_data.
  rewrite Hw.
  assert (Hn : Z.to_nat (CHILD_START_AGE + Z.of_nat (S k) - CHILD_START_AGE)
               = S k) by lia.
  split; [now rewrite length_arange|].
  split; [reflexivity|].
  split; [now rewrite length_tl, length_arange, Hn|].
  split; [rewrite length_map2; congruence|].
  split; [now rewrite length_tl, length_arange, Hn|].
  split; [exact Hs|].
  split; [intros j Hj; apply nth_arange; lia|].
  intros y Hy. split.
  - rewrite nth_tl, nth_arange by lia. lia.
  - apply nth_map2; [congruence | lia].
Qed.

Lemma life_trajectory_traces_witness :
  let c := nth 0 (children_after 1 None median_draws 60)
               (Person_init 0 NaN None) in
  let '((ages, wealths), (income_ages, incomes),
        (consumption_ages, consumptions)) :=
    plot_life_trajectory_data c in
  length ages = 61%nat /\ length wealths = 61%nat
  /\ length income_ages = 60%nat /\ length incomes = 60%nat
  /\ length consumption_ages = 60%nat /\ length consumptions = 60%nat
  /\ (forall j, (j <= 60)%nat ->
        nth j ages 0%Z = (CHILD_START_AGE + Z.of_nat j)%Z)
  /\ (forall y, (y < 60)%nat ->
        nth y income_ages 0%Z = (CHILD_START_AGE + 1 + Z.of_nat y)%Z
        /\ nth y incomes NaN
           = fadd (nth y (labor_income_history c) NaN)
                  (nth y (capital_income_history c) NaN)).
Proof.
  apply (life_trajectory_traces 1 None median_draws
           (Person_init 0 NaN None) 0 60). lia.
Defined.

Lemma nth_logspace (start stop : R) (num j : nat) :
  (j < num)%nat ->
  nth j (logspace start stop num) NaN
  = Fin (Rpower 10 (start + INR j * ((stop - start) / INR (num - 1)))).
Proof.
  intros Hj. unfold logspace, linspace.
  rewrite (nth_map_default _ _ _ NaN) by (now rewrite length_map, length_seq).
  rewrite (nth_map_default _ _ _ 0%nat) by (now rewrite length_seq).
  rewrite seq_nth by assumption.
  apply power_pos. lra.
Qed.

Lemma length_logspace (start stop : R) (num : nat) :
  length (logspace start stop num) = num.
Proof. unfold logspace, linspace. now rewrite !length_map, length_seq. Qed.

(** X25. The curves of [plot_mpc_consumption], for a positive base MPC, a
    positive reference income and an elasticity other than -1: the grid
    has 1000 incomes rising strictly from 10,000 to 10,000,000, no MPC on
    it is negative or NaN, and the consumption curve never falls along the
    grid. *)
Theorem mpc_consumption_curves (b ref e : R) :
  0 < b -> 0 < ref -> e <> -1 ->
  let '(incomes, mpcs, consumption) :=
    plot_mpc_consumption_data (Fin b) (Fin ref) (Fin e) in
  length incomes = 1000%nat
  /\ length mpcs = 1000%nat
  /\ length consumption = 1000%nat
  /\ nth 0 incomes NaN = Fin 10000
  /\ nth 999 incomes NaN = Fin 10000000
  /\ (forall j, (j < 1000)%nat -> fleb (Fin 0) (nth j mpcs NaN) = true)
  /\ (forall i j, (i < j)%nat -> (j < 1000)%nat ->
        fltb (nth i incomes NaN) (nth j incomes NaN) = true
        /\ fltb (nth j consumption NaN) (nth i consumption NaN) = false).
Proof.
  intros Hb Href He. unfold plot_mpc_consumption_data.
  assert (H999 : INR (1000 - 1) = 999).
  { replace (1000 - 1)%nat with 999%nat by lia.
    rewrite INR_IZR_INZ. reflexivity. }
  assert (Hinc : forall j, (j < 1000)%nat ->
            nth j (logspace 4 7 1000) NaN
            = Fin (Rpower 10 (4 + INR j * ((7 - 4) / 999)))).
  { intros j Hj. rewrite nth_logspace by assumption. now rewrite H999. }
  assert (Hgrid : forall i j, (i < j)%nat -> (j < 1000)%nat ->
            0 < Rpower 10 (4 + INR i * ((7 - 4) / 999))
              < Rpower 10 (4 + INR j * ((7 - 4) / 999))).
  { intros i j Hij Hj. split; [apply exp_pos|].
    apply Rpower_lt; [lra|].
    assert (INR i < INR j) by (apply lt_INR; lia). lra. }
  split; [apply length_logspace|].
  split; [now rewrite length_map, length_logspace|].
  split; [now rewrite length_map, length_logspace|].
  split.
  { rewrite Hinc by lia. f_equal. simpl INR.
    replace (4 + 0 * ((7 - 4) / 999)) with (INR 4) by (simpl; lra).
    rewrite Rpower_pow by lra. simpl. lra. }
  split.
  { rewrite Hinc by lia. f_equal.
    replace (INR 999) with 999 by (rewrite INR_IZR_INZ; reflexivity).
    replace (4 + 999 * ((7 - 4) / 999)) with (INR 7) by (simpl; lra).
    rewrite Rpower_pow by lra. simpl. lra. }
  split.
  - intros j Hj.
    rewrite !(nth_map_default _ _ _ NaN) by (now rewrite length_logspace).
    rewrite Hinc by assumption.
    rewrite mpc_closed_form by assumption.
    apply fleb_Fin. left. apply Rmult_lt_0_compat; [assumption|].
    apply exp_pos.
  - intros i j Hij Hj.
    rewrite !(nth_map_default _ _ _ NaN) by (rewrite length_logspace; lia).
    rewrite !Hinc by lia.
    destruct (Hgrid i j Hij Hj) as [Hpos Hlt].
    split; [simpl; now apply Rltb_true|].
    rewrite !consumption_closed_form by (assumption || lra).
    cbn [fltb]. apply Rltb_false.
    pose proof (closed_form_increasing b ref e Href He _ _ Hb
                  (conj Hpos Hlt)).
    lra.
Qed.

Lemma mpc_consumption_curves_witness :
  let '(incomes, mpcs, consumption) :=
    plot_mpc_consumption_data (Fin MPC_BASE) (Fin 35000)
                              (Fin MPC_ELASTICITY) in
  length incomes = 1000%nat
  /\ length mpcs = 1000%nat
  /\ length consumption = 1000%nat
  /\ nth 0 incomes NaN = Fin 10000
  /\ nth 999 incomes NaN = Fin 10000000
  /\ (forall j, (j < 1000)%nat -> fleb (Fin 0) (nth j mpcs NaN) = true)
  /\ (forall i j, (i < j)%nat -> (j < 1000)%nat ->
        fltb (nth i incomes NaN) (nth j incomes NaN) = true
        /\ fltb (nth j consumption NaN) (nth i consumption NaN) = false).
Proof.
  apply mpc_consumption_curves; unfold MPC_BASE, MPC_ELASTICITY; lra.
Defined.

(* ================================================================== *)
(** ** The rank figure on the statistics of a run *)

Lemma compress_map_map {A B : Type} (p : A -> bool) (f : A -> B)
    (l : list A) :
  compress (map p l) (map f l) = map f (filter p l).
Proof.
  induction l as [|x l IH]; simpl; [reflexivity|].
  destruct (p x); simpl; now rewrite IH.
Qed.

Lemma filter_all_true {A : Type} (p : A -> bool) (l : list A) :
  (forall x, In x l -> p x = true) -> filter p l = l.
Proof.
  induction l as [|x l IH]; intros H; simpl; [reflexivity|].
  rewrite (H x) by now left. f_equal. apply IH. intros; apply H; now right.
Qed.

Lemma filter_all_false {A : Type} (p : A -> bool) (l : list A) :
  (forall x, In x l -> p x = false) -> filter p l = [].
Proof.
  induction l as [|x l IH]; intros H; simpl; [reflexivity|].
  rewrite (H x) by now left. apply IH. intros; apply H; now right.
Qed.

(** Filtering [0, 1, ..., n - 1] by a predicate that holds exactly below
    (or exactly from) a threshold [m]. *)
Lemma filter_seq_below (p : nat -> bool) (m n : nat) :
  (m <= n)%nat ->
  (forall i, (i < m)%nat -> p i = true) ->
  (forall i, (m <= i < n)%nat -> p i = false) ->
  filter p (seq 0 n) = seq 0 m.
Proof.
  intros Hmn Ht Hf.
  replace n with (m + (n - m))%nat by lia.
  rewrite seq_app, filter_app.
  rewrite filter_all_true, filter_all_false.
  - apply app_nil_r.
  - intros i Hi. apply in_seq in Hi. apply Hf. lia.
  - intros i Hi. apply in_seq in Hi. apply Ht. lia.
Qed.

Lemma filter_seq_from (p : nat -> bool) (m n : nat) :
  (m <= n)%nat ->
  (forall i, (i < m)%nat -> p i = false) ->
  (forall i, (m <= i < n)%nat -> p i = true) ->
  filter p (seq 0 n) = seq m (n - m).
Proof.
  intros Hmn Hf Ht.
  replace n with (m + (n - m))%nat at 1 by lia.
  rewrite seq_app, filter_app.
  rewrite filter_all_false, filter_all_true.
  - reflexivity.
  - intros i Hi. apply in_seq in Hi. apply Ht. lia.
  - intros i Hi. apply in_seq in Hi. apply Hf. lia.
Qed.

Lemma bin_centers_as_map (n_bins : nat) :
  bin_centers n_bins
  = map (fun i => Fin ((2 * INR i + 1) / (2 * INR n_bins))) (seq 0 n_bins).
Proof.
  apply (nth_ext _ _ NaN NaN).
  - now rewrite length_bin_centers, length_map, length_seq.
  - intros i Hi. rewrite length_bin_centers in Hi.
    rewrite nth_bin_centers by assumption.
    rewrite (nth_map_default _ _ _ 0%nat) by (now rewrite length_seq).
    now rewrite seq_nth.
Qed.

Lemma INR_100 : INR 100 = 100.
Proof. rewrite INR_IZR_INZ. reflexivity. Qed.

Lemma INR_small (i k : nat) (z : Z) :
  Z.of_nat k = z -> (i <= k)%nat -> INR i <= IZR z.
Proof.
  intros <- H. rewrite <- INR_IZR_INZ. now apply le_INR.
Qed.

Lemma INR_large (i k : nat) (z : Z) :
  Z.of_nat k = z -> (k <= i)%nat -> IZR z <= INR i.
Proof.
  intros <- H. rewrite <- INR_IZR_INZ. now apply le_INR.
Qed.

(** With 100 bins, the centres below 0.1 are those of bins 0 to 9 and the
    centres from 0.4 on are those of bins 40 to 99. *)
Lemma low_bins_100 :
  filter (fun i => fltb (Fin ((2 * INR i + 1) / (2 * INR 100))) (Fin (1 / 10)))
         (seq 0 100)
  = seq 0 10.
Proof.
  apply filter_seq_below; [lia | |]; intros i Hi; cbn [fltb];
    rewrite INR_100.
  - apply Rltb_true.
    pose proof (INR_small i 9 9 eq_refl ltac:(lia)). lra.
  - apply Rltb_false.
    pose proof (INR_large i 10 10 eq_refl ltac:(lia)). lra.
Qed.

Lemma high_bins_100 :
  filter (fun i => fgeb (Fin ((2 * INR i + 1) / (2 * INR 100))) (Fin (4 / 10)))
         (seq 0 100)
  = seq 40 60.
Proof.
  apply (filter_seq_from _ 40 100); [lia | |]; intros i Hi;
    unfold fgeb; rewrite INR_100.
  - destruct (fleb (Fin (4 / 10)) (Fin ((2 * INR i + 1) / (2 * 100)))) eqn:E;
      [|reflexivity].
    apply fleb_Fin in E.
    pose proof (INR_small i 39 39 eq_refl ltac:(lia)). lra.
  - apply fleb_Fin.
    pose proof (INR_large i 40 40 eq_refl ltac:(lia)). lra.
Qed.

Lemma mean_single (x : float64) : mean [x] = x.
Proof.
  unfold mean, fsum. simpl. destruct x as [a| | |]; simpl; try reflexivity.
  - rewrite Reqb_false by lra. f_equal. field.
  - now rewrite Rltb_false by lra.
  - now rewrite Rltb_false by lra.
Qed.

(** The standard deviation of a single finite number is 0. *)
Lemma std_single (s : R) : std [Fin s] = Fin 0.
Proof.
  unfold std. rewrite mean_single.
  cbn [map fsub fneg fadd fabs fmul]. rewrite mean_single.
  assert (Hz : Rabs (s + - s) * Rabs (s + - s) = 0).
  { replace (s + - s) with 0 by lra. rewrite Rabs_R0. lra. }
  rewrite Hz. cbn [fsqrt]. rewrite Rltb_false by lra. now rewrite sqrt_0.
Qed.

Section RankFigureOfRun.

Variable n_people : nat.
Variable rs : RandomSource.
Variable wealth_ranks : list float64.

Lemma low_bins_above_first_empty (b : nat) :
  In b (seq 1 9) ->
  bin_mean (bequest_ranks n_people rs) wealth_ranks 100 b = NaN
  /\ bin_std (bequest_ranks n_people rs) wealth_ranks 100 b = NaN.
Proof.
  intros Hb. apply in_seq in Hb.
  assert (Hempty : count_true (bin_mask (bequest_ranks n_people rs) 100 b)
                   = 0%nat).
  { unfold bin_mask. apply count_true_map_none.
    pose proof (bequest_ranks_values n_people rs) as Hv.
    rewrite Forall_forall in *. intros x Hx.
    destruct (fgeb x (nth b (bins 100) NaN)
              && fltb x (nth (b + 1) (bins 100) NaN)) eqn:E;
      [|reflexivity].
    destruct (bin_selects_value 100 x b ltac:(lia) E) as (r & -> & Hr).
    rewrite INR_100 in Hr.
    pose proof (INR_small b 9 9 eq_refl ltac:(lia)) as Hb9.
    pose proof (INR_large b 1 1 eq_refl ltac:(lia)) as Hb1.
    destruct (Hv _ Hx) as [Hzero | (v & Hv' & Hrange)].
    - injection Hzero as ->. lra.
    - injection Hv' as ->. lra. }
  unfold bin_mean, bin_std. now rewrite Hempty.
Qed.

End RankFigureOfRun.

(** X27. The "No Bequest" markers of [plot_rank_relationships] on the
    statistics of a run with the default 100 bins.  The bins with centre
    below 0.1 are bins 0 to 9, of which only bin 0 can be occupied; so the
    mean marker is the mean of bin 0, and the volatility marker, the
    [np.nanstd] of the bins' standard deviations, is exactly 0 whenever
    the standard deviation of bin 0 is finite (and NaN otherwise): it is
    the deviation of a single number, not the volatility within the bin.
    The positive-bequest traces have 60 points, bins 40 to 99. *)
Theorem no_bequest_markers
    (n_people : nat) (rs : RandomSource) (wealth_ranks : list float64) :
  let '(centers, mean_ranks, std_ranks) :=
    calculate_rank_statistics (bequest_ranks n_people rs) wealth_ranks 100 in
  let figure := plot_rank_relationships_data centers mean_ranks std_ranks in
  snd (no_bequest figure)
  = [bin_mean (bequest_ranks n_people rs) wealth_ranks 100 0]
  /\ snd (no_bequest_volatility figure)
     = [if is_finite (bin_std (bequest_ranks n_people rs) wealth_ranks 100 0)
        then Fin 0 else NaN]
  /\ length (fst (positive_bequest figure)) = 60%nat
  /\ length (snd (positive_bequest figure)) = 60%nat
  /\ length (snd (positive_bequest_volatility figure)) = 60%nat.
Proof.
  unfold calculate_rank_statistics, plot_rank_relationships_data.
  cbn [no_bequest no_bequest_volatility positive_bequest
       positive_bequest_volatility fst snd].
  rewrite bin_centers_as_map.
  rewrite !map_map, !compress_map_map, low_bins_100, high_bins_100.
  rewrite !length_map, length_seq.
  change (seq 0 10) with (0%nat :: seq 1 9).
  assert (Hm : filter (fun x => negb (is_nan x))
                 (map (bin_mean (bequest_ranks n_people rs) wealth_ranks 100)
                      (seq 1 9)) = []).
  { apply filter_all_false. intros x Hx. apply in_map_iff in Hx.
    destruct Hx as (b & <- & Hb).
    now destruct (low_bins_above_first_empty n_people rs wealth_ranks b Hb)
      as [-> _]. }
  assert (Hs : filter (fun x => negb (is_nan x))
                 (map (bin_std (bequest_ranks n_people rs) wealth_ranks 100)
                      (seq 1 9)) = []).
  { apply filter_all_false. intros x Hx. apply in_map_iff in Hx.
    destruct Hx as (b & <- & Hb).
    now destruct (low_bins_above_first_empty n_people rs wealth_ranks b Hb)
      as [_ ->]. }
  split; [|split; [|repeat split]].
  - f_equal. unfold nanmean.
    change (map (bin_mean (bequest_ranks n_people rs) wealth_ranks 100)
                (0%nat :: seq 1 9))
      with (bin_mean (bequest_ranks n_people rs) wealth_ranks 100 0
            :: map (bin_mean (bequest_ranks n_people rs) wealth_ranks 100)
                   (seq 1 9)).
    cbn [filter]. rewrite Hm.
    destruct (bin_mean (bequest_ranks n_people rs) wealth_ranks 100 0)
      as [m| | |] eqn:E; cbn [is_nan negb]; try apply mean_single.
    unfold mean, fsum. simpl. rewrite Reqb_true by reflexivity.
    unfold signed_inf. now rewrite !Rltb_false by lra.
  - f_equal. unfold nanstd.
    change (map (bin_std (bequest_ranks n_people rs) wealth_ranks 100)
                (0%nat :: seq 1 9))
      with (bin_std (bequest_ranks n_people rs) wealth_ranks 100 0
            :: map (bin_std (bequest_ranks n_people rs) wealth_ranks 100)
                   (seq 1 9)).
    cbn [filter]. rewrite Hs.
    destruct (bin_std (bequest_ranks n_people rs) wealth_ranks 100 0)
      as [s| | |]; cbn [is_nan negb is_finite].
    + apply std_single.
    + unfold std. rewrite mean_single. cbn [map fsub fneg fadd fabs fmul].
      now rewrite mean_single.
    + unfold std. rewrite mean_single. cbn [map fsub fneg fadd fabs fmul].
      now rewrite mean_single.
    + unfold std, mean, fsum. simpl. rewrite Reqb_true by reflexivity.
      unfold signed_inf. now rewrite !Rltb_false by lra.
Qed.

(* ================================================================== *)
(** ** Capital income in a run *)

Section CapitalTrace.

Variable n_people : nat.
Variable mpc_params : option MpcParams.
Variable rs : RandomSource.

Lemma child_year_capital (year i : nat) (c : Person) :
  let c' := child_year n_people mpc_params rs year i c in
  let opening :=
    if (age c =? nth i (death_ages n_people rs) 0)%Z
    then fadd (wealth c) (nth i (bequests n_people rs) (Fin 0))
    else wealth c in
  capital_income_history c'
  = capital_income_history c
    ++ [fmul opening
             (fsub (fadd (Fin 1) (Fin (normal rs year i))) (Fin 1))].
Proof.
  cbv zeta. unfold child_year.
  destruct (age c =? nth i (death_ages n_people rs) 0)%Z; reflexivity.
Qed.

Lemma child_capital_trace (d : Person) (k i : nat) :
  (i < n_people)%nat ->
  let c := nth i (children_after n_people mpc_params rs k) d in
  forall y, (y < k)%nat ->
    nth y (capital_income_history c) NaN
    = fmul (if (CHILD_START_AGE + Z.of_nat y =? randint rs i)%Z
            then fadd (nth y (wealth_history c) NaN)
                      (nth i (bequests n_people rs) (Fin 0))
            else nth y (wealth_history c) NaN)
           (fsub (fadd (Fin 1) (Fin (normal rs y i))) (Fin 1)).
Proof.
  revert k i.
  apply (child_ind n_people mpc_params rs
           (fun k i c =>
              age c = (CHILD_START_AGE + Z.of_nat k)%Z
              /\ length (wealth_history c) = S k
              /\ length (capital_income_history c) = k
              /\ nth k (wealth_history c) NaN = wealth c
              /\ forall y, (y < k)%nat ->
                   nth y (capital_income_history c) NaN
                   = fmul (if (CHILD_START_AGE + Z.of_nat y
                               =? randint rs i)%Z
                           then fadd (nth y (wealth_history c) NaN)
                                     (nth i (bequests n_people rs) (Fin 0))
                           else nth y (wealth_history c) NaN)
                          (fsub (fadd (Fin 1) (Fin (normal rs y i)))
                                (Fin 1)))
           d).
  - intros i Hi. rewrite nth_initial_children by assumption.
    simpl. repeat split; try lia.
  - intros k i c Hi (Hage & Hw & Hc & Hlast & Hcap).
    destruct (child_year_effect n_people mpc_params rs k i c)
      as (labor & capital & cons & _ & _ & Ewh & _ & _ & _).
    pose proof (child_year_capital k i c) as Ecap. cbv zeta in Ecap.
    rewrite age_child_year, Ewh, Ecap, !length_app. simpl length.
    rewrite nth_death_ages by assumption.
    repeat split; try lia.
    + now apply nth_snoc_eq.
    + intros y Hy. destruct (Nat.eq_dec y k) as [-> | Hne].
      * rewrite nth_snoc_eq by assumption.
        rewrite (nth_snoc_lt (wealth_history c)) by lia.
        now rewrite Hlast, Hage.
      * rewrite !nth_snoc_lt by lia. apply Hcap. lia.
Qed.

End CapitalTrace.

(** X28. In a run, the capital income recorded for year [y] is the return
    draw of that year applied to the wealth with which the year opens,
    [wealth * ((1 + draw) - 1)], and in the year the bequest is paid that
    opening wealth already includes the bequest. *)
Theorem capital_income_history_in_run
    (n_people : nat) (mpc_params : option MpcParams) (rs : RandomSource)
    (d : Person) (i k y : nat) :
  (i < n_people)%nat -> (y < k)%nat ->
  let c := nth i (children_after n_people mpc_params rs k) d in
  let opening :=
    if (CHILD_START_AGE + Z.of_nat y =? randint rs i)%Z
    then fadd (nth y (wealth_history c) NaN)
              (nth i (bequests n_people rs) (Fin 0))
    else nth y (wealth_history c) NaN in
  nth y (capital_income_history c) NaN
  = fmul opening (fsub (fadd (Fin 1) (Fin (normal rs y i))) (Fin 1)).
Proof.
  intros Hi Hy. cbv zeta.
  now apply (child_capital_trace n_people mpc_params rs d k i Hi).
Qed.

Lemma capital_income_history_in_run_witness :
  let c := nth 0 (children_after 1 None median_draws 60)
               (Person_init 0 NaN None) in
  let opening :=
    if (CHILD_START_AGE + Z.of_nat 5 =? randint median_draws 0)%Z
    then fadd (nth 5 (wealth_history c) NaN)
              (nth 0 (bequests 1 median_draws) (Fin 0))
    else nth 5 (wealth_history c) NaN in
  nth 5 (capital_income_history c) NaN
  = fmul opening
         (fsub (fadd (Fin 1) (Fin (normal median_draws 5 0))) (Fin 1)).
Proof.
  apply (capital_income_history_in_run 1 None median_draws
           (Person_init 0 NaN None) 0 60 5); lia.
Defined.
